(** * prisma-read-after-write-analyzer: the classifier, the client detector
      and the write/read pairing, embedded and verified.

    The analyzer works on a syntax tree produced by an external parser
    (ts-morph).  The tree, the node handles (a node together with its chain
    of ancestors), the descendant queries and the rendering of a node's
    source text are the parser's side of the interface; the functions of
    [operation-classifier.ts], [prisma-detector.ts], [issue-detector.ts] and
    [index.ts] are translated on top of it, one definition per source
    function, with the source's names. *)

From Stdlib Require Import List String Ascii Bool Arith Lia DecimalString.
Import ListNotations.
Open Scope string_scope.
Open Scope list_scope.

Set Warnings "-register-all".

(* ================================================================== *)
(** ** The parsed tree (the parser's side of the interface)            *)
(* ================================================================== *)

(** Kinds of leaves and of inner nodes other than the four shapes the
    analyzer takes apart (calls, property accesses, [new] expressions and
    variable declarations). *)
Inductive LeafKind : Type :=
| Identifier | StringLiteral | NumericLiteral | Token.

Inductive InnerKind : Type :=
| SourceFileKind
| FunctionDeclaration | ArrowFunction | FunctionExpression | MethodDeclaration
| ClassDeclaration | Block | Statement | AwaitExpression
| ParenthesizedExpression | ObjectLiteralExpression | OtherSyntax.

Module SyntaxKind.
Inductive t : Type :=
| CallExpression
| PropertyAccessExpression
| NewExpression
| VariableDeclaration
| OfLeaf (k : LeafKind)
| OfInner (k : InnerKind).

Definition leaf_eqb (a b : LeafKind) : bool :=
  match a, b with
  | Identifier, Identifier | StringLiteral, StringLiteral
  | NumericLiteral, NumericLiteral | Token, Token => true
  | _, _ => false
  end.

Definition inner_eqb (a b : InnerKind) : bool :=
  match a, b with
  | SourceFileKind, SourceFileKind
  | FunctionDeclaration, FunctionDeclaration
  | ArrowFunction, ArrowFunction
  | FunctionExpression, FunctionExpression
  | MethodDeclaration, MethodDeclaration
  | ClassDeclaration, ClassDeclaration
  | Block, Block | Statement, Statement
  | AwaitExpression, AwaitExpression
  | ParenthesizedExpression, ParenthesizedExpression
  | ObjectLiteralExpression, ObjectLiteralExpression
  | OtherSyntax, OtherSyntax => true
  | _, _ => false
  end.

Definition eqb (a b : t) : bool :=
  match a, b with
  | CallExpression, CallExpression
  | PropertyAccessExpression, PropertyAccessExpression
  | NewExpression, NewExpression
  | VariableDeclaration, VariableDeclaration => true
  | OfLeaf x, OfLeaf y => leaf_eqb x y
  | OfInner x, OfInner y => inner_eqb x y
  | _, _ => false
  end.
End SyntaxKind.

(** The syntax tree.  A call and a variable declaration carry the offset of
    their first character ([getStart()]); a property access carries the text
    of its name identifier ([getName()]). *)
Inductive Ast : Type :=
| Leaf (kind : LeafKind) (text : string)
| PropertyAccess (expression : Ast) (name : string)
| Call (start : nat) (expression : Ast) (arguments : list Ast)
| New (expression : Ast) (arguments : list Ast)
| VarDecl (start : nat) (name : string) (initializer : option Ast)
| Inner (kind : InnerKind) (children : list Ast).

Definition getKind (a : Ast) : SyntaxKind.t :=
  match a with
  | Leaf k _ => SyntaxKind.OfLeaf k
  | PropertyAccess _ _ => SyntaxKind.PropertyAccessExpression
  | Call _ _ _ => SyntaxKind.CallExpression
  | New _ _ => SyntaxKind.NewExpression
  | VarDecl _ _ _ => SyntaxKind.VariableDeclaration
  | Inner k _ => SyntaxKind.OfInner k
  end.

(** The children a descendant scan visits, left to right.  (The name
    identifier of a property access or of a declaration is a leaf that no
    query of the analyzer selects; it is kept as text.) *)
Definition getChildren (a : Ast) : list Ast :=
  match a with
  | Leaf _ _ => []
  | PropertyAccess e _ => [e]
  | Call _ e args => e :: args
  | New e args => e :: args
  | VarDecl _ _ init => match init with Some i => [i] | None => [] end
  | Inner _ cs => cs
  end.

(** [getText()]: the source text of a node, rendered from the tree with no
    trivia between the tokens of an access or a call.  Inner nodes hold
    their keywords, punctuation and spacing as [Token] leaves. *)
Fixpoint joinWith (sep : string) (l : list string) : string :=
  match l with
  | [] => ""
  | [s] => s
  | s :: rest => s ++ sep ++ joinWith sep rest
  end.

Fixpoint getText (a : Ast) : string :=
  match a with
  | Leaf _ s => s
  | PropertyAccess e n => getText e ++ "." ++ n
  | Call _ e args => getText e ++ "(" ++ joinWith ", " (map getText args) ++ ")"
  | New e args =>
      "new " ++ getText e ++ "(" ++ joinWith ", " (map getText args) ++ ")"
  | VarDecl _ n init =>
      match init with
      | Some i => n ++ " = " ++ getText i
      | None => n
      end
  | Inner _ cs => String.concat "" (map getText cs)
  end.

(** A node handle: the subtree and the chain of its ancestors, innermost
    first.  [getParent()] pops the chain. *)
Record Node : Type := mkNode { ast : Ast; ancestors : list Ast }.

Definition getParent (n : Node) : option Node :=
  match ancestors n with
  | [] => None
  | p :: rest => Some (mkNode p rest)
  end.

(** [getDescendants()]: every node below [n], in document order (pre-order,
    left to right). *)
Fixpoint descendantsFrom (anc : list Ast) (a : Ast) {struct a} : list Node :=
  let visit := fun c => mkNode c (a :: anc) :: descendantsFrom (a :: anc) c in
  match a with
  | Leaf _ _ => []
  | PropertyAccess e _ => visit e
  | Call _ e args => visit e ++ flat_map visit args
  | New e args => visit e ++ flat_map visit args
  | VarDecl _ _ init => match init with Some i => visit i | None => [] end
  | Inner _ cs => flat_map visit cs
  end.

Definition getDescendants (n : Node) : list Node :=
  descendantsFrom (ancestors n) (ast n).

Definition isKind (k : SyntaxKind.t) (n : Node) : bool :=
  SyntaxKind.eqb (getKind (ast n)) k.

Definition getDescendantsOfKind (k : SyntaxKind.t) (n : Node) : list Node :=
  filter (isKind k) (getDescendants n).

(** A parsed source file: its path, the parser's position-to-(line, column)
    mapping and its statements. *)
Record SourceFile : Type := mkSourceFile {
  getFilePath : string;
  getLineAndColumnAtPos : nat -> nat * nat;
  statements : list Ast
}.

Definition rootNode (sf : SourceFile) : Node :=
  mkNode (Inner SourceFileKind (statements sf)) [].

(** [String.prototype.includes]: [needle] occurs somewhere in [text]. *)
Fixpoint includes (text needle : string) : bool :=
  if String.prefix needle text then true
  else match text with
       | EmptyString => false
       | String _ rest => includes rest needle
       end.

(** A template literal's rendering of a number. *)
Definition showNat (n : nat) : string :=
  NilEmpty.string_of_uint (Nat.to_uint n).

(* ================================================================== *)
(** ** types.ts                                                        *)
(* ================================================================== *)

Inductive PrismaOperationType : Type := read | write.

Record SourceLocation : Type := mkSourceLocation {
  file : string;
  line : nat;
  column : nat
}.

Record PrismaOperation : Type := mkPrismaOperation {
  type : PrismaOperationType;
  method : string;
  model : string;
  location : SourceLocation;
  usesReplica : bool;
  usesPrimary : bool;
  inTransaction : bool
}.

Inductive Severity : Type := error | warning.

(** The issue's own [type] field is named [issueType] here ([type] is the
    field of an operation); its one value is ["read-after-write"]. *)
Record Issue : Type := mkIssue {
  issueType : string;
  severity : Severity;
  writeOperation : PrismaOperation;
  readOperation : PrismaOperation;
  callChain : list string;
  message : string
}.

Record Summary : Type := mkSummary {
  totalIssues : nat;
  filesAnalyzed : nat;
  executionTime : string
}.

Record AnalysisResult : Type := mkAnalysisResult {
  summary : Summary;
  issues : list Issue
}.

Record AnalyzerOptions : Type := mkAnalyzerOptions {
  projectPath : string
}.

(* ================================================================== *)
(** ** operation-classifier.ts                                         *)
(* ================================================================== *)

Definition WRITE_METHODS : list string :=
  ["create"; "createMany"; "update"; "updateMany"; "upsert"; "delete";
   "deleteMany"].

Definition READ_METHODS : list string :=
  ["findMany"; "findUnique"; "findFirst"; "findFirstOrThrow";
   "findUniqueOrThrow"; "count"; "aggregate"; "groupBy"].

(** [Set.prototype.has]. *)
Definition has (s : list string) (x : string) : bool :=
  existsb (String.eqb x) s.

Definition isWriteMethod (method : string) : bool := has WRITE_METHODS method.
Definition isReadMethod (method : string) : bool := has READ_METHODS method.

(** [extractModelName]: the name of the access the method is taken from,
    unless it is [$primary] or [$replica]. *)
Definition extractModelName (propertyAccess : Ast) : option string :=
  match propertyAccess with
  | PropertyAccess expression _ =>
      match expression with
      | PropertyAccess _ name =>
          if (name =? "$primary") || (name =? "$replica") then None
          else Some name
      | _ => None
      end
  | _ => None
  end.

(** The [while (current)] loop of [checkReplicaUsage], as
    [(usesPrimary, usesReplica)]. *)
Fixpoint checkReplicaUsageFrom (current : Ast) : bool * bool :=
  let text := getText current in
  if includes text "$primary()" then (true, false)
  else if includes text "$replica()" then (false, true)
  else match current with
       | PropertyAccess expression _ => checkReplicaUsageFrom expression
       | Call _ expression _ => checkReplicaUsageFrom expression
       | _ => (false, false)
       end.

Definition checkReplicaUsage (propertyAccess : Ast) : bool * bool :=
  match propertyAccess with
  | PropertyAccess expression _ => checkReplicaUsageFrom expression
  | _ => (false, false)
  end.

(** Is [parent] a call whose callee is a property access named
    [$transaction]? *)
Definition isTransactionCall (parent : Ast) : bool :=
  match parent with
  | Call _ (PropertyAccess _ name) _ => name =? "$transaction"
  | _ => false
  end.

(** The [while (parent)] loop of [isInTransaction] over the chain of
    ancestors. *)
Fixpoint isInTransactionFrom (parents : list Ast) : bool :=
  match parents with
  | [] => false
  | parent :: rest =>
      if isTransactionCall parent then true else isInTransactionFrom rest
  end.

Definition isInTransaction (callExpression : Node) : bool :=
  isInTransactionFrom (ancestors callExpression).

(** JavaScript truthiness of a [string | null]. *)
Definition truthy (s : option string) : bool :=
  match s with
  | None => false
  | Some EmptyString => false
  | Some _ => true
  end.

(** [classifyOperation]; [None] is the source's [null].  The source takes a
    [CallExpression]; other nodes are never passed in. *)
Definition classifyOperation (sourceFile : SourceFile) (callExpression : Node)
  : option PrismaOperation :=
  match ast callExpression with
  | Call start expression _ =>
      match expression with
      | PropertyAccess _ methodName =>
          let type :=
            if has WRITE_METHODS methodName then Some write
            else if has READ_METHODS methodName then Some read
            else None in
          match type with
          | None => None
          | Some type =>
              let model := extractModelName expression in
              if negb (truthy model) then None
              else match model with
                   | None => None
                   | Some model =>
                       let (line, column) :=
                         getLineAndColumnAtPos sourceFile start in
                       let location :=
                         mkSourceLocation (getFilePath sourceFile) line column in
                       let (usesPrimary, usesReplica) :=
                         checkReplicaUsage expression in
                       let inTransaction := isInTransaction callExpression in
                       Some (mkPrismaOperation type methodName model location
                               usesReplica usesPrimary inTransaction)
                   end
          end
      | _ => None
      end
  | _ => None
  end.

(* ================================================================== *)
(** ** prisma-detector.ts                                              *)
(* ================================================================== *)

Record PrismaClientInstance : Type := mkPrismaClientInstance {
  instanceName : string;
  instanceFile : string;
  instanceLine : nat;
  hasReadReplicaExtension : bool
}.

Definition isPrismaClientDeclaration (declaration : Ast) : bool :=
  match declaration with
  | VarDecl _ _ None => false
  | VarDecl _ _ (Some initializer) =>
      match initializer with
      | New expression _ => getText expression =? "PrismaClient"
      | _ =>
          let text := getText initializer in
          includes text "PrismaClient" || includes text ".$extends"
      end
  | _ => false
  end.

Definition checkReadReplicaExtension (declaration : Ast) : bool :=
  match declaration with
  | VarDecl _ _ (Some initializer) =>
      let text := getText initializer in
      includes text "readReplicas" || includes text "read-replicas"
  | _ => false
  end.

Definition declarationName (declaration : Ast) : string :=
  match declaration with
  | VarDecl _ name _ => name
  | _ => ""
  end.

Definition declarationStart (declaration : Ast) : nat :=
  match declaration with
  | VarDecl start _ _ => start
  | _ => 0
  end.

(** The instances one file contributes (the inner [for] of
    [detectPrismaClients]). *)
Definition clientsOfFile (sourceFile : SourceFile) : list PrismaClientInstance :=
  flat_map
    (fun declaration : Node =>
       if isPrismaClientDeclaration (ast declaration) then
         [mkPrismaClientInstance
            (declarationName (ast declaration))
            (getFilePath sourceFile)
            (fst (getLineAndColumnAtPos sourceFile
                    (declarationStart (ast declaration))))
            (checkReadReplicaExtension (ast declaration))]
       else [])
    (getDescendantsOfKind SyntaxKind.VariableDeclaration (rootNode sourceFile)).

Definition detectPrismaClients (sourceFiles : list SourceFile)
  : list PrismaClientInstance :=
  flat_map clientsOfFile sourceFiles.

Definition isPrismaClientReference (identifierName : string)
    (prismaInstances : list PrismaClientInstance) : bool :=
  existsb (fun instance => instanceName instance =? identifierName)
          prismaInstances.

(* ================================================================== *)
(** ** issue-detector.ts                                               *)
(* ================================================================== *)

Record OperationWithNode : Type := mkOperationWithNode {
  operation : PrismaOperation;
  node : Node
}.

(** The first loop of [detectIssuesInFunction]: classify every call, keep
    the classified ones in traversal order. *)
Fixpoint classifyAll (sourceFile : SourceFile) (callExpressions : list Node)
  : list OperationWithNode :=
  match callExpressions with
  | [] => []
  | callExpr :: rest =>
      match classifyOperation sourceFile callExpr with
      | Some operation =>
          mkOperationWithNode operation callExpr :: classifyAll sourceFile rest
      | None => classifyAll sourceFile rest
      end
  end.

(** The issue literal built in the innermost loop body. *)
Definition makeIssue (writeOp readOp : PrismaOperation) : Issue :=
  mkIssue "read-after-write" error writeOp readOp
    [ (file (location writeOp) ++ ":" ++ showNat (line (location writeOp)))%string;
      (file (location readOp) ++ ":" ++ showNat (line (location readOp)))%string ]
    ("Read operation on " ++ model readOp ++ "." ++ method readOp
     ++ "() may use replica immediately after write operation on "
     ++ model writeOp ++ "." ++ method writeOp
     ++ "(), potentially reading stale data. Consider using $primary() for the read operation.")%string.

(** The inner loop, [j] from [i + 1]: [later] is [operations[i+1 ..]]. *)
Fixpoint readsAfter (writeOp : PrismaOperation) (later : list OperationWithNode)
  : list Issue :=
  match later with
  | [] => []
  | entry :: rest =>
      let readOp := operation entry in
      match type readOp with
      | write => readsAfter writeOp rest
      | read =>
          if inTransaction readOp then readsAfter writeOp rest
          else if usesPrimary readOp then readsAfter writeOp rest
          else makeIssue writeOp readOp :: readsAfter writeOp rest
      end
  end.

(** The outer loop, [i] from [0]: [operations] is [operations[i ..]]. *)
Fixpoint pairOperations (operations : list OperationWithNode) : list Issue :=
  match operations with
  | [] => []
  | entry :: rest =>
      let writeOp := operation entry in
      match type writeOp with
      | read => pairOperations rest
      | write =>
          if inTransaction writeOp then pairOperations rest
          else readsAfter writeOp rest ++ pairOperations rest
      end
  end.

(** The construct's operation sequence, with the nodes. *)
Definition operationsOf (sourceFile : SourceFile) (func : Node)
  : list OperationWithNode :=
  classifyAll sourceFile (getDescendantsOfKind SyntaxKind.CallExpression func).

Definition detectIssuesInFunction (sourceFile : SourceFile) (func : Node)
  : list Issue :=
  pairOperations (operationsOf sourceFile func).

(** The function-like constructs of a file, in the order the source lists
    them. *)
Definition functionsOf (sourceFile : SourceFile) : list Node :=
  let root := rootNode sourceFile in
  getDescendantsOfKind (SyntaxKind.OfInner FunctionDeclaration) root
  ++ getDescendantsOfKind (SyntaxKind.OfInner ArrowFunction) root
  ++ getDescendantsOfKind (SyntaxKind.OfInner FunctionExpression) root
  ++ getDescendantsOfKind (SyntaxKind.OfInner MethodDeclaration) root.

Definition detectIssuesInFile (sourceFile : SourceFile)
    (_prismaInstances : list PrismaClientInstance) : list Issue :=
  flat_map (detectIssuesInFunction sourceFile) (functionsOf sourceFile).

(* ================================================================== *)
(** ** index.ts                                                        *)
(* ================================================================== *)

(** What [analyze] reads from outside: the two file-system checks of
    [file-utils.ts] and the source files the project at a [tsconfig.json]
    path loads. *)
Record Environment : Type := mkEnvironment {
  pathExists : string -> bool;
  isDirectory : string -> bool;
  getSourceFiles : string -> list SourceFile
}.

Inductive LogEntry : Type :=
| LogInfo (text : string)
| LogWarning (text : string).

(** A run of [analyze]: the lines it logged, and either the message of the
    [Error] it threw or its result. *)
Definition Run : Type := (list LogEntry * (string + AnalysisResult))%type.

Definition analyze (env : Environment) (options : AnalyzerOptions) : Run :=
  if negb (pathExists env (projectPath options)) then
    ([], inl ("Project path does not exist: " ++ projectPath options)%string)
  else if negb (isDirectory env (projectPath options)) then
    ([], inl ("Project path is not a directory: " ++ projectPath options)%string)
  else
    let sourceFiles :=
      getSourceFiles env (projectPath options ++ "/tsconfig.json")%string in
    let prismaInstances := detectPrismaClients sourceFiles in
    let log :=
      [ LogInfo "Initializing TypeScript project...";
        LogInfo ("Found " ++ showNat (List.length sourceFiles) ++ " source files")%string;
        LogInfo "Detecting PrismaClient instances...";
        LogInfo ("Found " ++ showNat (List.length prismaInstances)
                 ++ " PrismaClient instance(s)")%string ] in
    if Nat.eqb (List.length prismaInstances) 0 then
      (log ++ [LogWarning "No PrismaClient instances found. Analysis complete."],
       inr (mkAnalysisResult (mkSummary 0 (List.length sourceFiles) "0s") []))
    else
      let hasReadReplica := existsb hasReadReplicaExtension prismaInstances in
      let log :=
        log
        ++ (if negb hasReadReplica then
              [LogWarning
                 "No read replica extension detected. Analysis may not be applicable."]
            else [])
        ++ [LogInfo "Analyzing files for read-after-write issues..."] in
      let allIssues :=
        flat_map (fun sourceFile => detectIssuesInFile sourceFile prismaInstances)
                 sourceFiles in
      (log ++ [LogInfo ("Analysis complete. Found "
                        ++ showNat (List.length allIssues) ++ " issue(s)")%string],
       inr (mkAnalysisResult
              (mkSummary (List.length allIssues) (List.length sourceFiles) "0s")
              allIssues)).

(* ================================================================== *)
(** ** The pairing loops in closed form                                *)
(* ================================================================== *)

(** The two guards of the loops, as predicates on an operation. *)
Definition isUnguardedWrite (op : PrismaOperation) : bool :=
  match type op with
  | write => negb (inTransaction op)
  | read => false
  end.

Definition isUnguardedRead (op : PrismaOperation) : bool :=
  match type op with
  | read => negb (inTransaction op) && negb (usesPrimary op)
  | write => false
  end.

(** Every unguarded write of a sequence paired with every unguarded read
    behind it. *)
Fixpoint pairsOf (ops : list PrismaOperation) : list Issue :=
  match ops with
  | [] => []
  | w :: rest =>
      (if isUnguardedWrite w
       then map (makeIssue w) (filter isUnguardedRead rest)
       else [])
      ++ pairsOf rest
  end.


(* ================================================================== *)
(** ** Enclosing scopes and counting                                   *)
(* ================================================================== *)

(** [getAncestors()]: the handles of the ancestors, innermost first. *)
Fixpoint ancestorNodesFrom (parents : list Ast) : list Node :=
  match parents with
  | [] => []
  | p :: rest => mkNode p rest :: ancestorNodesFrom rest
  end.

Definition getAncestors (n : Node) : list Node :=
  ancestorNodesFrom (ancestors n).

(** The four kinds [detectIssuesInFile] collects. *)
Definition isFunctionLike (n : Node) : bool :=
  isKind (SyntaxKind.OfInner FunctionDeclaration) n
  || isKind (SyntaxKind.OfInner ArrowFunction) n
  || isKind (SyntaxKind.OfInner FunctionExpression) n
  || isKind (SyntaxKind.OfInner MethodDeclaration) n.

(** The function-like constructs a node is nested in. *)
Definition enclosingFunctions (n : Node) : list Node :=
  filter isFunctionLike (getAncestors n).

(** The handles of the ancestors [pre], innermost first, of a node whose
    chain is [pre ++ base]. *)
Fixpoint ancestorNodesBelow (pre base : list Ast) : list Node :=
  match pre with
  | [] => []
  | p :: rest => mkNode p (rest ++ base) :: ancestorNodesBelow rest base
  end.

Definition PrismaOperationType_eq_dec (a b : PrismaOperationType) :
  {a = b} + {a <> b}.
Proof. decide equality. Defined.

Definition SourceLocation_eq_dec (a b : SourceLocation) : {a = b} + {a <> b}.
Proof. decide equality; auto using Nat.eq_dec, string_dec. Defined.

Definition PrismaOperation_eq_dec (a b : PrismaOperation) : {a = b} + {a <> b}.
Proof.
  decide equality;
    auto using bool_dec, string_dec, SourceLocation_eq_dec,
               PrismaOperationType_eq_dec.
Defined.

Definition Severity_eq_dec (a b : Severity) : {a = b} + {a <> b}.
Proof. decide equality. Defined.

Definition Issue_eq_dec (a b : Issue) : {a = b} + {a <> b}.
Proof.
  decide equality;
    auto using string_dec, list_eq_dec, PrismaOperation_eq_dec,
               Severity_eq_dec.
Defined.

(** How often an issue occurs in an issue list. *)
Definition occurrences (i : Issue) (l : list Issue) : nat :=
  count_occ Issue_eq_dec l i.

(** The operation [classifyOperation] builds for a call
    [<inner>.<name>.<methodName>(...)] at offset [start] under the
    ancestors [anc], once its three early returns are passed. *)
Definition classified (sourceFile : SourceFile) (anc : list Ast) (start : nat)
    (inner : Ast) (name methodName : string) : PrismaOperation :=
  mkPrismaOperation
    (if isWriteMethod methodName then write else read)
    methodName name
    (mkSourceLocation (getFilePath sourceFile)
       (fst (getLineAndColumnAtPos sourceFile start))
       (snd (getLineAndColumnAtPos sourceFile start)))
    (snd (checkReplicaUsageFrom (PropertyAccess inner name)))
    (fst (checkReplicaUsageFrom (PropertyAccess inner name)))
    (isInTransactionFrom anc).

(** How often an issue is reported by the function-like constructs found
    in a scan. *)
Definition occurrencesIn (sf : SourceFile) (i : Issue) (scan : list Node) : nat :=
  occurrences i
    (flat_map (detectIssuesInFunction sf) (filter isFunctionLike scan)).

(* ================================================================== *)
(** ** Vocabulary of the statements                                    *)
(* ================================================================== *)

(** The three conditions every reported pair satisfies. *)
Definition respectsGuards (i : Issue) : Prop :=
  inTransaction (writeOperation i) = false
  /\ inTransaction (readOperation i) = false
  /\ usesPrimary (readOperation i) = false.

(** Neither in a transaction nor routed to the primary. *)
Definition unguarded (op : PrismaOperation) : bool :=
  negb (inTransaction op) && negb (usesPrimary op).

(** An operation, an entry of the sequence and an issue with the replica
    flag cleared. *)
Definition withoutReplicaFlag (op : PrismaOperation) : PrismaOperation :=
  mkPrismaOperation (type op) (method op) (model op) (location op)
    false (usesPrimary op) (inTransaction op).

Definition entryWithoutReplicaFlag (e : OperationWithNode) : OperationWithNode :=
  mkOperationWithNode (withoutReplicaFlag (operation e)) (node e).

Definition issueWithoutReplicaFlag (i : Issue) : Issue :=
  mkIssue (issueType i) (severity i)
    (withoutReplicaFlag (writeOperation i))
    (withoutReplicaFlag (readOperation i))
    (callChain i) (message i).


(* ================================================================== *)
(** ** Sample programs                                                 *)
(* ================================================================== *)

Module Sample.

(** Builders for the shapes the fixtures use. *)
Definition ident (s : string) : Ast := Leaf Identifier s.
Definition tok (s : string) : Ast := Leaf Token s.
Definition objectLiteral : Ast := Inner ObjectLiteralExpression [tok "{ }"].
Definition await (e : Ast) : Ast := Inner AwaitExpression [tok "await "; e].
Definition statement (e : Ast) : Ast := Inner Statement [e; tok "; "].
Definition constStatement (d : Ast) : Ast :=
  Inner Statement [tok "const "; d; tok "; "].
Definition block (body : list Ast) : Ast :=
  Inner Block ((tok "{ " :: body) ++ [tok "}"]).
Definition functionDeclaration (name : string) (body : list Ast) : Ast :=
  Inner FunctionDeclaration
    [tok "async function "; ident name; tok "() "; block body].
Definition arrowFunction (param : string) (body : list Ast) : Ast :=
  Inner ArrowFunction
    [tok "async ("; ident param; tok ") => "; block body].

(** 64 columns to a line; [at_ l c] is the offset of line [l], column [c]. *)
Definition lineAndColumn (pos : nat) : nat * nat :=
  (S (pos / 64), S (pos mod 64)).
Definition at_ (l c : nat) : nat := 64 * (l - 1) + (c - 1).

(** [<client>.<entity>.<method>({ })] at line [l], column [c]. *)
Definition storeCall (l c : nat) (client : Ast) (entity method : string) : Ast :=
  Call (at_ l c) (PropertyAccess (PropertyAccess client entity) method)
       [objectLiteral].

Definition prisma : Ast := ident "prisma".
Definition primaryOf (l c : nat) (client : Ast) : Ast :=
  Call (at_ l c) (PropertyAccess client "$primary") [].
Definition replicaOf (l c : nat) (client : Ast) : Ast :=
  Call (at_ l c) (PropertyAccess client "$replica") [].

(** [const prisma = new PrismaClient().$extends(readReplicas({ }))]. *)
Definition prismaDeclaration : Ast :=
  constStatement
    (VarDecl (at_ 5 7) "prisma"
       (Some (Call (at_ 5 16)
                (PropertyAccess (New (ident "PrismaClient") []) "$extends")
                [Call (at_ 6 3) (ident "readReplicas") [objectLiteral]]))).

(** The five functions of
    [tests/fixtures/sample-project/src/example-with-issues.ts]. *)
Definition createAndReadUser : Ast :=
  functionDeclaration "createAndReadUser"
    [ constStatement
        (VarDecl (at_ 13 9) "newUser"
           (Some (await (storeCall 13 25 prisma "user" "create"))));
      constStatement
        (VarDecl (at_ 18 9) "users"
           (Some (await (storeCall 18 23 prisma "user" "findMany")))) ].

Definition updateAndReadWithReplica : Ast :=
  functionDeclaration "updateAndReadWithReplica"
    [ statement (await (storeCall 27 9 prisma "user" "update"));
      constStatement
        (VarDecl (at_ 33 9) "user"
           (Some (await (storeCall 33 22 (replicaOf 33 22 prisma)
                           "user" "findUnique")))) ].

Definition createAndReadWithPrimary : Ast :=
  functionDeclaration "createAndReadWithPrimary"
    [ constStatement
        (VarDecl (at_ 42 9) "newUser"
           (Some (await (storeCall 42 25 prisma "user" "create"))));
      constStatement
        (VarDecl (at_ 47 9) "users"
           (Some (await (storeCall 47 23 (primaryOf 47 23 prisma)
                           "user" "findMany")))) ].

Definition transactionCallback : Ast :=
  arrowFunction "tx"
    [ constStatement
        (VarDecl (at_ 57 11) "newUser"
           (Some (await (storeCall 57 27 (ident "tx") "user" "create"))));
      constStatement
        (VarDecl (at_ 62 11) "users"
           (Some (await (storeCall 62 25 (ident "tx") "user" "findMany")))) ].

Definition transactionCall : Ast :=
  Call (at_ 56 24) (PropertyAccess prisma "$transaction") [transactionCallback].

Definition transactionExample : Ast :=
  functionDeclaration "transactionExample"
    [ constStatement (VarDecl (at_ 56 9) "result" (Some (await transactionCall))) ].

Definition multipleOperations : Ast :=
  functionDeclaration "multipleOperations"
    [ statement (await (storeCall 75 9 prisma "user" "create"));
      constStatement
        (VarDecl (at_ 80 9) "user1"
           (Some (await (storeCall 80 23 prisma "user" "findFirst"))));
      statement (await (storeCall 85 9 prisma "user" "update"));
      constStatement
        (VarDecl (at_ 91 9) "user2"
           (Some (await (storeCall 91 23 prisma "user" "findUnique")))) ].

Definition exampleWithIssues : SourceFile :=
  mkSourceFile "src/example-with-issues.ts" lineAndColumn
    [ prismaDeclaration; createAndReadUser; updateAndReadWithReplica;
      createAndReadWithPrimary; transactionExample; multipleOperations ].

(** The handle of a top-level statement of a file. *)
Definition topLevel (sf : SourceFile) (a : Ast) : Node :=
  mkNode a [Inner SourceFileKind (statements sf)].

(** Two writes followed by three reads, none guarded. *)
Definition twoWritesThreeReads : Ast :=
  functionDeclaration "twoWritesThreeReads"
    [ statement (await (storeCall 2 9 prisma "user" "create"));
      statement (await (storeCall 3 9 prisma "post" "update"));
      statement (await (storeCall 4 9 prisma "user" "findMany"));
      statement (await (storeCall 5 9 prisma "post" "count"));
      statement (await (storeCall 6 9 prisma "user" "findFirst")) ].

Definition crossProductFile : SourceFile :=
  mkSourceFile "src/cross.ts" lineAndColumn [twoWritesThreeReads].

(** A write and a read in a callback nested two function levels deep:
    [function outer() { const run = function () { items.forEach(async
    (x) => { create; findMany }) } }]. *)
Definition innermost : Ast :=
  arrowFunction "x"
    [ statement (await (storeCall 4 11 prisma "user" "create"));
      statement (await (storeCall 5 11 prisma "user" "findMany")) ].

Definition middle : Ast :=
  Inner FunctionExpression
    [ tok "function () ";
      block [ statement
                (Call (at_ 3 5) (PropertyAccess (ident "items") "forEach")
                   [innermost]) ] ].

Definition outer : Ast :=
  functionDeclaration "outer"
    [ constStatement (VarDecl (at_ 2 9) "run" (Some middle)) ].

Definition nestedFile : SourceFile :=
  mkSourceFile "src/nested.ts" lineAndColumn [prismaDeclaration; outer].



(** Handles into the samples: the [$transaction] call of the fixture and
    the first store call below it; the innermost callback of the nested
    file. *)
Definition transactionNode : Node :=
  nth 0 (filter (fun n => isTransactionCall (ast n))
           (getDescendants (rootNode exampleWithIssues)))
      (rootNode exampleWithIssues).

Definition createInTransaction : Node :=
  nth 0 (getDescendantsOfKind SyntaxKind.CallExpression transactionNode)
      (rootNode exampleWithIssues).

Definition innermostNode : Node :=
  nth 0 (getDescendantsOfKind (SyntaxKind.OfInner ArrowFunction)
           (rootNode nestedFile))
      (rootNode nestedFile).

Definition nestedIssue : Issue :=
  makeIssue
    (classified nestedFile [] (at_ 4 11) prisma "user" "create")
    (classified nestedFile [] (at_ 5 11) prisma "user" "findMany").

Definition projectOf (files : list SourceFile) : Environment :=
  mkEnvironment (fun _ => true) (fun _ => true) (fun _ => files).

Definition options : AnalyzerOptions := mkAnalyzerOptions "/project".

End Sample.

(* ================================================================== *)
(** ** utils/file-utils.ts                                             *)
(* ================================================================== *)

(** What [node:fs] answers: [existsSync], and [statSync], which throws
    ([None]) or returns the two bits of [Stats] the utilities read. *)
Record Stats : Type := mkStats {
  statIsDirectory : bool;
  statIsFile : bool
}.

Record FileSystem : Type := mkFileSystem {
  existsSync : string -> bool;
  statSync : string -> option Stats
}.

(** [String.prototype.endsWith]. *)
Definition endsWith (text suffix : string) : bool :=
  let n := String.length text in
  let m := String.length suffix in
  if Nat.leb m n then String.eqb (substring (n - m) m text) suffix
  else false.

Module FileUtils.

(** [existsSync(path) && statSync(path).isDirectory()], [false] when the
    call throws. *)
Definition isDirectory (fs : FileSystem) (path : string) : bool :=
  if existsSync fs path then
    match statSync fs path with
    | Some stats => statIsDirectory stats
    | None => false
    end
  else false.


Definition pathExists (fs : FileSystem) (path : string) : bool :=
  existsSync fs path.

Definition shouldAnalyzeFile (filePath : string) : bool :=
  endsWith filePath ".ts" || endsWith filePath ".tsx".

End FileUtils.


(* ================================================================== *)
(** ** cli.ts                                                          *)
(* ================================================================== *)

Module Cli.


End Cli.

(* ================================================================== *)
(** ** Further vocabulary and samples                                  *)
(* ================================================================== *)

(** The fixed fields and the call chain of a reported issue, for a file. *)
Definition wellFormedIssue (sf : SourceFile) (i : Issue) : Prop :=
  issueType i = "read-after-write"
  /\ severity i = error
  /\ type (writeOperation i) = write
  /\ type (readOperation i) = read
  /\ file (location (writeOperation i)) = getFilePath sf
  /\ file (location (readOperation i)) = getFilePath sf
  /\ callChain i
     = [ (getFilePath sf ++ ":"
          ++ showNat (line (location (writeOperation i))))%string;
         (getFilePath sf ++ ":"
          ++ showNat (line (location (readOperation i))))%string ].

(** The callee of a call. *)
Definition calleeOf (a : Ast) : option Ast :=
  match a with
  | Call _ expression _ => Some expression
  | _ => None
  end.

(** The expression a property access is taken from. *)
Definition receiverOf (a : Ast) : option Ast :=
  match a with
  | PropertyAccess expression _ => Some expression
  | _ => None
  end.

(** The text the routing walk of a call starts from: that of the
    expression its method is taken from. *)
Definition routingText (callExpression : Ast) : string :=
  match callExpression with
  | Call _ (PropertyAccess expression _) _ => getText expression
  | _ => ""
  end.

Module MoreSamples.

(** [function lookup() { await prisma.user.findMany({ where: await
    prisma.user.create({ }) }) }]: the write is an argument of the read. *)
Definition writeInsideRead : Ast :=
  Call (Sample.at_ 2 9)
    (PropertyAccess (PropertyAccess Sample.prisma "user") "findMany")
    [Sample.await (Sample.storeCall 2 40 Sample.prisma "user" "create")].

Definition lookup : Ast :=
  Sample.functionDeclaration "lookup"
    [Sample.statement (Sample.await writeInsideRead)].

Definition lookupFile : SourceFile :=
  mkSourceFile "src/lookup.ts" Sample.lineAndColumn
    [Sample.prismaDeclaration; lookup].

Definition lookupNode : Node := Sample.topLevel lookupFile lookup.

Definition readNode : Node :=
  nth 0 (getDescendantsOfKind SyntaxKind.CallExpression lookupNode)
      (rootNode lookupFile).

Definition writeNode : Node :=
  nth 0 (getDescendantsOfKind SyntaxKind.CallExpression readNode)
      (rootNode lookupFile).

(** [function touch() { await prisma.user.update({ }); await
    getClient('$primary()').user.findMany({ }) }]: a string that is not a
    routing call. *)
Definition literalClient : Ast :=
  Call (Sample.at_ 3 9) (Sample.ident "getClient")
    [Leaf StringLiteral "'$primary()'"].

Definition touch : Ast :=
  Sample.functionDeclaration "touch"
    [ Sample.statement (Sample.await
                          (Sample.storeCall 2 9 Sample.prisma "user" "update"));
      Sample.statement (Sample.await
                          (Sample.storeCall 3 9 literalClient "user" "findMany")) ].

Definition touchFile : SourceFile :=
  mkSourceFile "src/touch.ts" Sample.lineAndColumn
    [Sample.prismaDeclaration; touch].

(** A write and a read at the top level of a module, outside any
    function. *)
Definition topLevelFile : SourceFile :=
  mkSourceFile "src/seed.ts" Sample.lineAndColumn
    [ Sample.prismaDeclaration;
      Sample.statement (Sample.await
                          (Sample.storeCall 3 7 Sample.prisma "user" "create"));
      Sample.statement (Sample.await
                          (Sample.storeCall 4 7 Sample.prisma "user" "findMany")) ].

(** A file system with one directory and one file. *)
Definition disk : FileSystem :=
  mkFileSystem
    (fun p => (p =? "/project") || (p =? "/project/tsconfig.json"))
    (fun p => if p =? "/project" then Some (mkStats true false)
              else if p =? "/project/tsconfig.json"
                   then Some (mkStats false true)
                   else None).

(** Handles into the fixture. *)
Definition fixture : SourceFile := Sample.exampleWithIssues.

Definition callbackNode : Node :=
  nth 0 (getDescendantsOfKind (SyntaxKind.OfInner ArrowFunction)
           (rootNode fixture))
      (rootNode fixture).

Definition callInCallback : Node :=
  nth 0 (getDescendantsOfKind SyntaxKind.CallExpression callbackNode)
      (rootNode fixture).

Definition createAndReadUserNode : Node :=
  Sample.topLevel fixture Sample.createAndReadUser.

Definition createNode : Node :=
  nth 0 (getDescendantsOfKind SyntaxKind.CallExpression createAndReadUserNode)
      (rootNode fixture).

Definition findManyNode : Node :=
  nth 1 (getDescendantsOfKind SyntaxKind.CallExpression createAndReadUserNode)
      (rootNode fixture).

Definition createOperation : PrismaOperation :=
  classified fixture [] (Sample.at_ 13 25) Sample.prisma "user" "create".

Definition findManyOperation : PrismaOperation :=
  classified fixture [] (Sample.at_ 18 23) Sample.prisma "user" "findMany".

Definition firstIssue : Issue := makeIssue createOperation findManyOperation.


Definition fixtureInstance : PrismaClientInstance :=
  mkPrismaClientInstance "prisma" "src/example-with-issues.ts" 5 true.

Definition touchReadNode : Node :=
  nth 1 (getDescendantsOfKind SyntaxKind.CallExpression
           (Sample.topLevel touchFile touch))
      (rootNode touchFile).

End MoreSamples.
Lemma readsAfter_filter (w : PrismaOperation) (later : list OperationWithNode) :
  readsAfter w later
  = map (makeIssue w) (filter isUnguardedRead (map operation later)).
Proof.
  induction later as [|e rest IH]; simpl; [reflexivity|].
  unfold isUnguardedRead.
  destruct (type (operation e)); simpl; [|exact IH].
  destruct (inTransaction (operation e)); simpl; [exact IH|].
  destruct (usesPrimary (operation e)); simpl; [exact IH|].
  now rewrite IH.
Qed.

Lemma pairOperations_pairsOf (ops : list OperationWithNode) :
  pairOperations ops = pairsOf (map operation ops).
Proof.
  induction ops as [|e rest IH]; simpl; [reflexivity|].
  unfold isUnguardedWrite.
  destruct (type (operation e)); simpl; [exact IH|].
  destruct (inTransaction (operation e)); simpl; [exact IH|].
  now rewrite readsAfter_filter, IH.
Qed.

Lemma detectIssuesInFunction_pairsOf (sf : SourceFile) (func : Node) :
  detectIssuesInFunction sf func = pairsOf (map operation (operationsOf sf func)).
Proof. apply pairOperations_pairsOf. Qed.

Lemma unguarded_write_not_read (op : PrismaOperation) :
  isUnguardedWrite op = true -> isUnguardedRead op = false.
Proof.
  unfold isUnguardedWrite, isUnguardedRead. now destruct (type op).
Qed.

Lemma unguarded_read_not_write (op : PrismaOperation) :
  isUnguardedRead op = true -> isUnguardedWrite op = false.
Proof.
  unfold isUnguardedWrite, isUnguardedRead. now destruct (type op).
Qed.

Lemma filter_all (A : Type) (p : A -> bool) (l : list A) :
  forallb p l = true -> filter p l = l.
Proof.
  induction l as [|x l IH]; simpl; [reflexivity|].
  intros H. apply andb_true_iff in H as [Hx Hl]. now rewrite Hx, IH.
Qed.

Lemma filter_none (A : Type) (p q : A -> bool) (l : list A) :
  (forall x, q x = true -> p x = false) ->
  forallb q l = true -> filter p l = [].
Proof.
  intros Hpq. induction l as [|x l IH]; simpl; [reflexivity|].
  intros H. apply andb_true_iff in H as [Hx Hl]. now rewrite (Hpq x Hx), IH.
Qed.

Lemma pairsOf_reads_only (rs : list PrismaOperation) :
  forallb isUnguardedRead rs = true -> pairsOf rs = [].
Proof.
  induction rs as [|r rs IH]; simpl; [reflexivity|].
  intros H. apply andb_true_iff in H as [Hr Hrs].
  now rewrite (unguarded_read_not_write _ Hr), IH.
Qed.

Lemma pairsOf_writes_then_reads (ws rs : list PrismaOperation) :
  forallb isUnguardedWrite ws = true ->
  forallb isUnguardedRead rs = true ->
  pairsOf (ws ++ rs) = flat_map (fun w => map (makeIssue w) rs) ws.
Proof.
  intros Hws Hrs. induction ws as [|w ws IH]; simpl.
  - now apply pairsOf_reads_only.
  - simpl in Hws. apply andb_true_iff in Hws as [Hw Hws].
    rewrite Hw, filter_app, IH by assumption.
    rewrite (filter_none _ _ _ ws unguarded_write_not_read Hws).
    now rewrite (filter_all _ _ _ Hrs).
Qed.

Lemma length_cross (A B C : Type) (f : A -> B -> C) (ws : list A) (rs : list B) :
  List.length (flat_map (fun w => map (f w) rs) ws)
  = List.length ws * List.length rs.
Proof.
  induction ws as [|w ws IH]; simpl; [reflexivity|].
  now rewrite length_app, length_map, IH.
Qed.

(** An issue of a sequence comes from a write and a later read of it. *)
Lemma in_pairsOf (ops : list PrismaOperation) (i : Issue) :
  In i (pairsOf ops) <->
  exists pre w mid r post,
    ops = pre ++ w :: mid ++ r :: post
    /\ isUnguardedWrite w = true /\ isUnguardedRead r = true
    /\ i = makeIssue w r.
Proof.
  induction ops as [|x rest IH]; simpl.
  - split; [tauto|]. intros (pre & w & mid & r & post & H & _).
    destruct pre; discriminate.
  - rewrite in_app_iff, IH. split.
    + intros [H | (pre & w & mid & r & post & -> & Hw & Hr & ->)].
      * destruct (isUnguardedWrite x) eqn:Hx; [|contradiction].
        apply in_map_iff in H as (r & <- & Hr).
        apply filter_In in Hr as [Hr Hur].
        apply in_split in Hr as (mid & post & ->).
        now exists [], x, mid, r, post.
      * now exists (x :: pre), w, mid, r, post.
    + intros (pre & w & mid & r & post & H & Hw & Hr & ->).
      destruct pre as [|y pre]; simpl in H; injection H as -> ->.
      * left. rewrite Hw. apply in_map, filter_In. split; [|exact Hr].
        apply in_or_app. right. now left.
      * right. now exists pre, w, mid, r, post.
Qed.

(* ================================================================== *)
(** ** The syntax tree: induction and descendant scans                 *)
(* ================================================================== *)

(** Induction on a tree through its children. *)
Lemma Ast_children_ind (P : Ast -> Prop) :
  (forall a, (forall c, In c (getChildren a) -> P c) -> P a) ->
  forall a, P a.
Proof.
  intros step. fix IH 1. intros a. apply step.
  assert (Hlist : forall l : list Ast, forall c, In c l -> P c).
  { intros l. induction l as [|x l IHl]; intros c Hc; [destruct Hc|].
    destruct Hc as [<- | Hc]; [apply IH | apply IHl, Hc]. }
  destruct a as [k s | e n | st e args | e args | st n init | k cs]; simpl.
  - intros c [].
  - intros c [<- | []]. apply IH.
  - intros c [<- | Hc]; [apply IH | apply (Hlist args), Hc].
  - intros c [<- | Hc]; [apply IH | apply (Hlist args), Hc].
  - destruct init as [i|]; intros c Hc; [|destruct Hc].
    destruct Hc as [<- | []]. apply IH.
  - intros c Hc. apply (Hlist cs), Hc.
Qed.

Lemma descendantsFrom_children (anc : list Ast) (a : Ast) :
  descendantsFrom anc a
  = flat_map (fun c => mkNode c (a :: anc) :: descendantsFrom (a :: anc) c)
             (getChildren a).
Proof.
  destruct a as [k s | e n | st e args | e args | st n init | k cs]; simpl;
    try reflexivity.
  - now rewrite app_nil_r.
  - destruct init; simpl; [now rewrite app_nil_r | reflexivity].
Qed.

(** A descendant is either a child or a descendant of a child. *)
Lemma in_descendantsFrom (anc : list Ast) (a : Ast) (h : Node) :
  In h (descendantsFrom anc a) <->
  exists c, In c (getChildren a)
            /\ (h = mkNode c (a :: anc) \/ In h (descendantsFrom (a :: anc) c)).
Proof.
  rewrite descendantsFrom_children, in_flat_map. split.
  - intros (c & Hc & [<- | H]); exists c; auto.
  - intros (c & Hc & [-> | H]); exists c; simpl; auto.
Qed.

(** The chain of a descendant extends the chain of the node it is under. *)
Lemma descendant_ancestors (a : Ast) :
  forall anc h, In h (descendantsFrom anc a) ->
  exists pre, ancestors h = pre ++ a :: anc.
Proof.
  induction a as [a IH] using Ast_children_ind. intros anc h Hh.
  apply in_descendantsFrom in Hh as (c & Hc & [-> | Hh]).
  - now exists [].
  - destruct (IH c Hc _ _ Hh) as (pre & ->).
    exists (pre ++ [c]). now rewrite <- app_assoc.
Qed.

(** Document order keeps a subtree together: the descendants of a
    descendant are a segment of the scan. *)
Lemma descendants_segment (a : Ast) :
  forall anc h, In h (descendantsFrom anc a) ->
  exists before after,
    descendantsFrom anc a = before ++ h :: getDescendants h ++ after.
Proof.
  induction a as [a IH] using Ast_children_ind. intros anc h Hh.
  apply in_descendantsFrom in Hh as (c & Hc & Hh).
  rewrite descendantsFrom_children.
  apply in_split in Hc as (cs1 & cs2 & Hcs). rewrite Hcs.
  rewrite flat_map_app. simpl.
  set (visit := fun c0 => mkNode c0 (a :: anc) :: descendantsFrom (a :: anc) c0).
  destruct Hh as [-> | Hh].
  - exists (flat_map visit cs1), (flat_map visit cs2).
    unfold getDescendants. simpl. reflexivity.
  - assert (Hin : In c (getChildren a)) by (rewrite Hcs; apply in_elt).
    destruct (IH c Hin _ _ Hh) as (b1 & a1 & ->).
    exists (flat_map visit cs1 ++ mkNode c (a :: anc) :: b1),
           (a1 ++ flat_map visit cs2).
    repeat (rewrite <- app_assoc; simpl). reflexivity.
Qed.

Lemma descendants_trans (g h : Node) (anc : list Ast) (a : Ast) :
  In g (descendantsFrom anc a) -> In h (getDescendants g) ->
  In h (descendantsFrom anc a).
Proof.
  intros Hg Hh. destruct (descendants_segment _ _ _ Hg) as (b1 & a1 & ->).
  apply in_or_app. right. right. apply in_or_app. now left.
Qed.

(** The proper ancestors of a descendant of [a] are [a], ancestors of [a],
    or descendants of [a] that have the node below them. *)
Lemma descendant_getAncestors (a : Ast) :
  forall anc h g,
    In h (descendantsFrom anc a) -> In g (getAncestors h) ->
    (g = mkNode a anc \/ In g (ancestorNodesFrom anc))
    \/ (In g (descendantsFrom anc a) /\ In h (getDescendants g)).
Proof.
  induction a as [a IH] using Ast_children_ind. intros anc h g Hh Hg.
  apply in_descendantsFrom in Hh as (c & Hc & [-> | Hh]).
  - left. unfold getAncestors in Hg. simpl in Hg.
    destruct Hg as [<- | Hg]; auto.
  - assert (Hchild : In (mkNode c (a :: anc)) (descendantsFrom anc a)).
    { apply in_descendantsFrom. exists c. auto. }
    destruct (IH c Hc _ _ _ Hh Hg) as [[-> | Hup] | [Hdown Hbelow]].
    + right. split; [exact Hchild | exact Hh].
    + left. simpl in Hup. destruct Hup as [<- | Hup]; auto.
    + right. split; [|exact Hbelow].
      apply in_descendantsFrom. exists c. auto.
Qed.

Lemma ancestorNodesFrom_shorter (parents : list Ast) (g : Node) :
  In g (ancestorNodesFrom parents) ->
  List.length (ancestors g) < List.length parents.
Proof.
  induction parents as [|p rest IH]; simpl; [tauto|].
  intros [<- | H]; simpl; [lia|]. specialize (IH H). lia.
Qed.

Lemma NoDup_ancestorNodesFrom (parents : list Ast) :
  NoDup (ancestorNodesFrom parents).
Proof.
  induction parents as [|p rest IH]; simpl; constructor; [|exact IH].
  intros H. apply ancestorNodesFrom_shorter in H. simpl in H. lia.
Qed.

Lemma NoDup_self_and_ancestors (n : Node) : NoDup (n :: getAncestors n).
Proof.
  constructor; [|apply NoDup_ancestorNodesFrom].
  intros H. apply ancestorNodesFrom_shorter in H. lia.
Qed.

(* ================================================================== *)
(** ** The classifier                                                  *)
(* ================================================================== *)

Lemma classifyOperation_some (sf : SourceFile) (anc : list Ast) (start : nat)
    (inner : Ast) (name m : string) (args : list Ast) :
  isWriteMethod m || isReadMethod m = true ->
  name <> "" -> name <> "$primary" -> name <> "$replica" ->
  classifyOperation sf
    (mkNode (Call start (PropertyAccess (PropertyAccess inner name) m) args) anc)
  = Some (classified sf anc start inner name m).
Proof.
  intros Hm Hne Hp Hr. unfold classifyOperation, classified, isWriteMethod,
    isReadMethod in *.
  apply String.eqb_neq in Hp, Hr.
  cbn [ast extractModelName]. rewrite Hp, Hr. cbn [orb].
  assert (Ht : truthy (Some name) = true)
    by (destruct name; [congruence | reflexivity]).
  rewrite Ht. cbn [negb checkReplicaUsage].
  destruct (getLineAndColumnAtPos sf start) as [l c].
  destruct (checkReplicaUsageFrom (PropertyAccess inner name)) as [p r].
  destruct (has WRITE_METHODS m); [reflexivity|].
  cbn [orb] in Hm. rewrite Hm. reflexivity.
Qed.

Lemma classifyOperation_inv (sf : SourceFile) (n : Node) (op : PrismaOperation) :
  classifyOperation sf n = Some op ->
  exists start inner name m args,
    ast n = Call start (PropertyAccess (PropertyAccess inner name) m) args
    /\ isWriteMethod m || isReadMethod m = true
    /\ name <> "" /\ name <> "$primary" /\ name <> "$replica"
    /\ op = classified sf (ancestors n) start inner name m.
Proof.
  destruct n as [a anc]. intros H.
  assert (Hshape : exists start inner name m args,
             a = Call start (PropertyAccess (PropertyAccess inner name) m) args
             /\ isWriteMethod m || isReadMethod m = true
             /\ name <> "" /\ name <> "$primary" /\ name <> "$replica").
  { unfold classifyOperation in H. cbn [ast] in H.
    destruct a as [| | start e args | | |]; try discriminate.
    destruct e as [| e m | | | |]; try discriminate.
    cbv zeta in H.
    assert (Hm : isWriteMethod m || isReadMethod m = true).
    { unfold isWriteMethod, isReadMethod.
      destruct (has WRITE_METHODS m); [reflexivity|].
      destruct (has READ_METHODS m); [reflexivity | discriminate]. }
    assert (Hmodel : truthy (extractModelName (PropertyAccess e m)) = true).
    { destruct (truthy (extractModelName (PropertyAccess e m)));
        [reflexivity|].
      cbn [negb] in H.
      destruct (has WRITE_METHODS m); [discriminate|].
      destruct (has READ_METHODS m); discriminate. }
    cbn [extractModelName] in Hmodel.
    destruct e as [| inner name | | | |]; try discriminate.
    destruct (name =? "$primary") eqn:Hp; [discriminate|].
    destruct (name =? "$replica") eqn:Hr; [discriminate|].
    apply String.eqb_neq in Hp, Hr.
    exists start, inner, name, m, args. repeat split; try assumption.
    intros ->. discriminate. }
  destruct Hshape as (start & inner & name & m & args & -> & Hm & Hne & Hp & Hr).
  exists start, inner, name, m, args. repeat split; try assumption.
  rewrite (classifyOperation_some sf anc start inner name m args Hm Hne Hp Hr) in H.
  cbn [ancestors]. congruence.
Qed.

(* ================================================================== *)
(** ** The operation sequence of a construct                           *)
(* ================================================================== *)

Lemma classifyAll_app (sf : SourceFile) (l1 l2 : list Node) :
  classifyAll sf (l1 ++ l2) = classifyAll sf l1 ++ classifyAll sf l2.
Proof.
  induction l1 as [|n l1 IH]; simpl; [reflexivity|].
  destruct (classifyOperation sf n); simpl; now rewrite IH.
Qed.

Lemma in_classifyAll (sf : SourceFile) (l : list Node) (e : OperationWithNode) :
  In e (classifyAll sf l) ->
  In (node e) l /\ classifyOperation sf (node e) = Some (operation e).
Proof.
  induction l as [|n l IH]; simpl; [tauto|].
  destruct (classifyOperation sf n) as [op|] eqn:Hn.
  - intros [<- | H]; simpl; [auto|]. destruct (IH H). auto.
  - intros H. destruct (IH H). auto.
Qed.

(** Every operation of a sequence is the classification of a call of the
    construct. *)
Lemma operationsOf_classified (sf : SourceFile) (func : Node)
    (op : PrismaOperation) :
  In op (map operation (operationsOf sf func)) ->
  exists n, In n (getDescendantsOfKind SyntaxKind.CallExpression func)
            /\ classifyOperation sf n = Some op.
Proof.
  intros H. apply in_map_iff in H as (e & <- & He).
  apply in_classifyAll in He as [Hn Hc]. now exists (node e).
Qed.

(** The method decides the type. *)
Lemma classified_type (sf : SourceFile) (n : Node) (op : PrismaOperation) :
  classifyOperation sf n = Some op ->
  type op = if isWriteMethod (method op) then write else read.
Proof.
  intros H. apply classifyOperation_inv in H
    as (start & inner & name & m & args & _ & _ & _ & _ & _ & ->).
  reflexivity.
Qed.

Lemma isUnguardedWrite_iff (op : PrismaOperation) :
  isUnguardedWrite op = true <-> type op = write /\ inTransaction op = false.
Proof.
  unfold isUnguardedWrite.
  destruct (type op), (inTransaction op); simpl; intuition congruence.
Qed.

Lemma isUnguardedRead_iff (op : PrismaOperation) :
  isUnguardedRead op = true <->
  type op = read /\ inTransaction op = false /\ usesPrimary op = false.
Proof.
  unfold isUnguardedRead.
  destruct (type op), (inTransaction op), (usesPrimary op); simpl;
    intuition congruence.
Qed.

Lemma pairsOf_respectsGuards (ops : list PrismaOperation) :
  Forall respectsGuards (pairsOf ops).
Proof.
  apply Forall_forall. intros i Hi.
  apply in_pairsOf in Hi as (pre & w & mid & r & post & _ & Hw & Hr & ->).
  apply isUnguardedWrite_iff in Hw as [_ Hw].
  apply isUnguardedRead_iff in Hr as (_ & Hr1 & Hr2).
  now repeat split.
Qed.

Lemma Forall_flat_map (A B : Type) (P : B -> Prop) (f : A -> list B)
    (l : list A) :
  (forall x, Forall P (f x)) -> Forall P (flat_map f l).
Proof.
  intros H. induction l as [|x l IH]; simpl; [constructor|].
  apply Forall_app. split; [apply H | exact IH].
Qed.

Lemma detectIssuesInFile_respectsGuards (sf : SourceFile)
    (insts : list PrismaClientInstance) :
  Forall respectsGuards (detectIssuesInFile sf insts).
Proof.
  unfold detectIssuesInFile. apply Forall_flat_map. intros func.
  rewrite detectIssuesInFunction_pairsOf. apply pairsOf_respectsGuards.
Qed.

Lemma readsAfter_withoutReplicaFlag (w : PrismaOperation)
    (later : list OperationWithNode) :
  readsAfter (withoutReplicaFlag w) (map entryWithoutReplicaFlag later)
  = map issueWithoutReplicaFlag (readsAfter w later).
Proof.
  induction later as [|e rest IH]; simpl; [reflexivity|].
  destruct (type (operation e)); [|exact IH].
  destruct (inTransaction (operation e)); [exact IH|].
  destruct (usesPrimary (operation e)); [exact IH|].
  simpl. now rewrite IH.
Qed.

Lemma pairOperations_withoutReplicaFlag (ops : list OperationWithNode) :
  pairOperations (map entryWithoutReplicaFlag ops)
  = map issueWithoutReplicaFlag (pairOperations ops).
Proof.
  induction ops as [|e rest IH]; simpl; [reflexivity|].
  destruct (type (operation e)); [exact IH|].
  destruct (inTransaction (operation e)); [exact IH|].
  now rewrite map_app, readsAfter_withoutReplicaFlag, IH.
Qed.

(* ================================================================== *)
(** ** Substrings                                                      *)
(* ================================================================== *)



Lemma prefix_app_l (n a b : string) :
  String.prefix n a = true -> String.prefix n (a ++ b) = true.
Proof.
  revert a. induction n as [|ch n IH]; intros a; simpl.
  - intros _. now destruct (a ++ b)%string.
  - destruct a as [|ch' a]; simpl; [discriminate|].
    destruct (ascii_dec ch ch'); [apply IH | discriminate].
Qed.

Lemma includes_prefix (t n : string) :
  String.prefix n t = true -> includes t n = true.
Proof. intros H. destruct t; cbn [includes]; now rewrite H. Qed.

Lemma includes_app_l (a b n : string) :
  includes a n = true -> includes (a ++ b) n = true.
Proof.
  induction a as [|ch a IH]; cbn [includes append].
  - destruct (String.prefix n "") eqn:Hp; [|discriminate].
    intros _. apply includes_prefix.
    apply (prefix_app_l n "" b Hp).
  - destruct (String.prefix n (String ch a)) eqn:Hp.
    + intros _. change (String ch (a ++ b)) with (String ch a ++ b)%string.
      now rewrite (prefix_app_l n (String ch a) b Hp).
    + intros H. rewrite (IH H).
      now destruct (String.prefix n (String ch (a ++ b))).
Qed.



(* ================================================================== *)
(** ** Routing flags and transactions                                  *)
(* ================================================================== *)

Lemma checkReplicaUsageFrom_eq (current : Ast) :
  checkReplicaUsageFrom current
  = if includes (getText current) "$primary()" then (true, false)
    else if includes (getText current) "$replica()" then (false, true)
    else match current with
         | PropertyAccess expression _ => checkReplicaUsageFrom expression
         | Call _ expression _ => checkReplicaUsageFrom expression
         | _ => (false, false)
         end.
Proof. destruct current; reflexivity. Qed.

Lemma checkReplicaUsageFrom_exclusive (current : Ast) :
  fst (checkReplicaUsageFrom current) && snd (checkReplicaUsageFrom current)
  = false.
Proof.
  induction current as [a IH] using Ast_children_ind.
  rewrite checkReplicaUsageFrom_eq.
  destruct (includes (getText a) "$primary()"); [reflexivity|].
  destruct (includes (getText a) "$replica()"); [reflexivity|].
  destruct a; try reflexivity; apply IH; simpl; auto.
Qed.

Lemma isInTransactionFrom_app (pre : list Ast) (a : Ast) (anc : list Ast) :
  isTransactionCall a = true ->
  isInTransactionFrom (pre ++ a :: anc) = true.
Proof.
  intros Ha. induction pre as [|p pre IH]; simpl.
  - now rewrite Ha.
  - now destruct (isTransactionCall p).
Qed.


(* ================================================================== *)
(** ** Nested constructs                                               *)
(* ================================================================== *)

Lemma in_functionsOf (sf : SourceFile) (f : Node) :
  In f (functionsOf sf) <->
  In f (getDescendants (rootNode sf)) /\ isFunctionLike f = true.
Proof.
  unfold functionsOf, getDescendantsOfKind, isFunctionLike.
  rewrite !in_app_iff, !filter_In, !orb_true_iff. tauto.
Qed.

Lemma rootNode_not_function (sf : SourceFile) :
  isFunctionLike (rootNode sf) = false.
Proof. reflexivity. Qed.

(** A function-like ancestor of a construct of the file is a construct of
    the file, and has the construct among its descendants. *)
Lemma enclosing_function_in_file (sf : SourceFile) (f g : Node) :
  In f (getDescendants (rootNode sf)) ->
  In g (enclosingFunctions f) ->
  In g (functionsOf sf) /\ In f (getDescendants g).
Proof.
  intros Hf Hg. apply filter_In in Hg as [Hg Hfun].
  destruct (descendant_getAncestors _ _ _ _ Hf Hg)
    as [[-> | []] | [Hdown Hbelow]].
  - change (isFunctionLike (rootNode sf) = true) in Hfun.
    rewrite rootNode_not_function in Hfun. discriminate.
  - split; [|exact Hbelow]. apply in_functionsOf. auto.
Qed.

(** The sequence of a node below [g], call or not, is a segment of the
    sequence of [g]. *)
Lemma operationsOf_segment (sf : SourceFile) (g f : Node) :
  In f (getDescendants g) ->
  exists before after,
    operationsOf sf g = before ++ operationsOf sf f ++ after.
Proof.
  intros Hf. unfold operationsOf, getDescendantsOfKind.
  destruct (descendants_segment _ _ _ Hf) as (b & a & Hseg).
  unfold getDescendants at 1. rewrite Hseg.
  rewrite filter_app. cbn [filter].
  destruct (isKind SyntaxKind.CallExpression f).
  - rewrite filter_app.
    change (f :: filter (isKind SyntaxKind.CallExpression) (getDescendants f)
              ++ filter (isKind SyntaxKind.CallExpression) a)
      with ([f] ++ filter (isKind SyntaxKind.CallExpression) (getDescendants f)
              ++ filter (isKind SyntaxKind.CallExpression) a).
    rewrite !classifyAll_app.
    exists (classifyAll sf (filter (isKind SyntaxKind.CallExpression) b)
            ++ classifyAll sf [f]).
    eexists. rewrite <- !app_assoc. reflexivity.
  - rewrite filter_app, !classifyAll_app. eauto.
Qed.

Lemma occurrences_app (i : Issue) (l1 l2 : list Issue) :
  occurrences i (l1 ++ l2) = occurrences i l1 + occurrences i l2.
Proof. apply count_occ_app. Qed.

Lemma occurrences_pairsOf_app_l (i : Issue) (before ops : list PrismaOperation) :
  occurrences i (pairsOf ops) <= occurrences i (pairsOf (before ++ ops)).
Proof.
  induction before as [|x before IH]; simpl; [lia|].
  rewrite occurrences_app. lia.
Qed.

Lemma occurrences_pairsOf_app_r (i : Issue) (ops after : list PrismaOperation) :
  occurrences i (pairsOf ops) <= occurrences i (pairsOf (ops ++ after)).
Proof.
  induction ops as [|w ops IH]; simpl; [unfold occurrences; simpl; lia|].
  rewrite !occurrences_app.
  destruct (isUnguardedWrite w); [|lia].
  rewrite filter_app, map_app, occurrences_app. lia.
Qed.

Lemma occurrences_segment (sf : SourceFile) (g f : Node) (i : Issue) :
  In f (getDescendants g) ->
  occurrences i (detectIssuesInFunction sf f)
  <= occurrences i (detectIssuesInFunction sf g).
Proof.
  intros Hf.
  destruct (operationsOf_segment sf g f Hf) as (b & a & Hseg).
  rewrite !detectIssuesInFunction_pairsOf, Hseg, !map_app.
  etransitivity; [apply occurrences_pairsOf_app_r|].
  apply occurrences_pairsOf_app_l.
Qed.

(** Distinct entries of a list each contribute their share to a count
    over the concatenation. *)
Lemma occurrences_flat_map_ge (A : Type) (f : A -> list Issue) (i : Issue)
    (m : nat) (xs : list A) :
  NoDup xs ->
  forall l, incl xs l ->
  (forall x, In x xs -> m <= occurrences i (f x)) ->
  List.length xs * m <= occurrences i (flat_map f l).
Proof.
  induction 1 as [|x xs Hx Hnd IH]; intros l Hincl Hm; simpl; [lia|].
  assert (Hxl : In x l) by (apply Hincl; now left).
  apply in_split in Hxl as (l1 & l2 & ->).
  rewrite flat_map_app. simpl. rewrite !occurrences_app.
  assert (Hrest : incl xs (l1 ++ l2)).
  { intros y Hy. assert (Hyl : In y (l1 ++ x :: l2))
      by (apply Hincl; now right).
    apply in_app_iff in Hyl as [Hyl | [-> | Hyl]];
      [apply in_or_app; now left | contradiction | apply in_or_app; now right]. }
  specialize (IH (l1 ++ l2) Hrest (fun y Hy => Hm y (or_intror Hy))).
  rewrite flat_map_app, occurrences_app in IH.
  specialize (Hm x (or_introl eq_refl)). lia.
Qed.

(* ================================================================== *)
(** ** Counting a pair exactly                                         *)
(* ================================================================== *)

Lemma NoDup_app_disjoint (A : Type) (l1 l2 : list A) (x : A) :
  NoDup (l1 ++ l2) -> In x l1 -> In x l2 -> False.
Proof.
  induction l1 as [|y l1 IH]; simpl; intros Hnd H1 H2; [contradiction|].
  inversion Hnd as [|? ? Hy Hrest]; subst.
  destruct H1 as [-> | H1]; [|now apply IH].
  apply Hy, in_or_app. now right.
Qed.

Lemma makeIssue_inj (w1 r1 w2 r2 : PrismaOperation) :
  makeIssue w1 r1 = makeIssue w2 r2 -> w1 = w2 /\ r1 = r2.
Proof.
  intros H. split.
  - exact (f_equal writeOperation H).
  - exact (f_equal readOperation H).
Qed.

Lemma pairsOf_writeOperation (ops : list PrismaOperation) (i : Issue) :
  In i (pairsOf ops) ->
  In (writeOperation i) ops /\ In (readOperation i) ops.
Proof.
  intros H. apply in_pairsOf in H as (pre & w & mid & r & post & -> & _ & _ & ->).
  simpl. split.
  - apply in_or_app. right. now left.
  - apply in_or_app. right. right. apply in_or_app. right. now left.
Qed.

(** A sequence without repeated operations yields no repeated issue. *)
Lemma NoDup_pairsOf (ops : list PrismaOperation) :
  NoDup ops -> NoDup (pairsOf ops).
Proof.
  induction 1 as [|w rest Hw Hnd IH]; simpl; [constructor|].
  apply NoDup_app; [| exact IH |].
  - destruct (isUnguardedWrite w); [|constructor].
    assert (Hf : NoDup (filter isUnguardedRead rest)) by now apply NoDup_filter.
    induction Hf as [|r rs Hr Hrs IHrs]; simpl; constructor; [|exact IHrs].
    intros Hin. apply in_map_iff in Hin as (r' & Heq & Hr').
    apply makeIssue_inj in Heq as [_ ->]. contradiction.
  - intros i Hi Hi'. apply pairsOf_writeOperation in Hi' as [Hi' _].
    destruct (isUnguardedWrite w); [|contradiction].
    apply in_map_iff in Hi as (r & <- & _). simpl in Hi'. contradiction.
Qed.

Lemma occurrences_NoDup (i : Issue) (l : list Issue) :
  NoDup l -> In i l -> occurrences i l = 1.
Proof.
  intros Hnd Hin. unfold occurrences.
  now apply (proj1 (NoDup_count_occ' Issue_eq_dec l) Hnd).
Qed.

Lemma occurrences_flat_map_zero (A : Type) (f : A -> list Issue) (i : Issue)
    (l : list A) :
  (forall x, In x l -> ~ In i (f x)) -> occurrences i (flat_map f l) = 0.
Proof.
  intros H. unfold occurrences. apply count_occ_not_In.
  intros Hin. apply in_flat_map in Hin as (x & Hx & Hi). exact (H x Hx Hi).
Qed.

Lemma in_classifyAll_iff (sf : SourceFile) (l : list Node)
    (e : OperationWithNode) :
  In e (classifyAll sf l) <->
  In (node e) l /\ classifyOperation sf (node e) = Some (operation e).
Proof.
  split; [apply in_classifyAll|].
  intros [Hn Hc]. induction l as [|n l IH]; simpl in *; [contradiction|].
  destruct Hn as [-> | Hn].
  - rewrite Hc. left. now destruct e.
  - destruct (classifyOperation sf n); [right|]; now apply IH.
Qed.

(** The operations of a construct all of whose descendants lie in a scan
    are among the operations classified from that scan. *)
Lemma operations_within (sf : SourceFile) (g : Node) (scan : list Node)
    (op : PrismaOperation) :
  incl (getDescendants g) scan ->
  In op (map operation (operationsOf sf g)) ->
  In op (map operation
           (classifyAll sf (filter (isKind SyntaxKind.CallExpression) scan))).
Proof.
  intros Hincl Hop. apply in_map_iff in Hop as (e & <- & He).
  apply in_map. apply in_classifyAll_iff in He as [Hn Hc].
  apply in_classifyAll_iff. split; [|exact Hc].
  apply filter_In in Hn as [Hn Hk]. apply filter_In. split; [|exact Hk].
  now apply Hincl.
Qed.

Lemma descendants_closed (g : Node) (anc : list Ast) (a : Ast) :
  In g (descendantsFrom anc a) ->
  incl (getDescendants g) (descendantsFrom anc a).
Proof. intros Hg h Hh. exact (descendants_trans g h anc a Hg Hh). Qed.

(** The scan of a list of sibling subtrees is closed under descendants. *)
Lemma siblings_closed (anc : list Ast) (cs : list Ast) (g : Node) :
  In g (flat_map (fun c => mkNode c anc :: descendantsFrom anc c) cs) ->
  incl (getDescendants g)
       (flat_map (fun c => mkNode c anc :: descendantsFrom anc c) cs).
Proof.
  intros Hg h Hh. apply in_flat_map in Hg as (c & Hc & Hg).
  apply in_flat_map. exists c. split; [exact Hc|]. right.
  destruct Hg as [<- | Hg]; [exact Hh|].
  exact (descendants_trans g h anc c Hg Hh).
Qed.

Lemma NoDup_segment (A : Type) (before l after : list A) :
  NoDup (before ++ l ++ after) -> NoDup l.
Proof.
  intros H. apply NoDup_app_remove_l in H. now apply NoDup_app_remove_r in H.
Qed.

Lemma NoDup_operations_below (sf : SourceFile) (g f : Node) :
  In f (getDescendants g) ->
  NoDup (map operation (operationsOf sf g)) ->
  NoDup (map operation (operationsOf sf f)).
Proof.
  intros Hf Hnd. destruct (operationsOf_segment sf g f Hf) as (b & a & Hseg).
  rewrite Hseg, !map_app in Hnd. exact (NoDup_segment _ _ _ _ Hnd).
Qed.

Lemma ancestorNodesFrom_app (pre base : list Ast) :
  ancestorNodesFrom (pre ++ base)
  = ancestorNodesBelow pre base ++ ancestorNodesFrom base.
Proof. induction pre as [|p pre IH]; simpl; [reflexivity | now rewrite IH]. Qed.

Lemma ancestorNodesBelow_snoc (pre : list Ast) (c : Ast) (base : list Ast) :
  ancestorNodesBelow (pre ++ [c]) base
  = ancestorNodesBelow pre (c :: base) ++ [mkNode c base].
Proof.
  induction pre as [|p pre IH]; simpl; [reflexivity|].
  now rewrite IH, <- app_assoc.
Qed.

Lemma occurrencesIn_app (sf : SourceFile) (i : Issue) (l1 l2 : list Node) :
  occurrencesIn sf i (l1 ++ l2) = occurrencesIn sf i l1 + occurrencesIn sf i l2.
Proof.
  unfold occurrencesIn. now rewrite filter_app, flat_map_app, occurrences_app.
Qed.

Lemma occurrencesIn_cons (sf : SourceFile) (i : Issue) (g : Node)
    (l : list Node) :
  occurrencesIn sf i (g :: l)
  = (if isFunctionLike g then occurrences i (detectIssuesInFunction sf g) else 0)
    + occurrencesIn sf i l.
Proof.
  unfold occurrencesIn. simpl. destruct (isFunctionLike g); simpl;
    [now rewrite occurrences_app | reflexivity].
Qed.

Lemma occurrencesIn_zero (sf : SourceFile) (i : Issue) (l : list Node) :
  (forall g, In g l -> isFunctionLike g = true ->
             ~ In i (detectIssuesInFunction sf g)) ->
  occurrencesIn sf i l = 0.
Proof.
  intros H. apply occurrences_flat_map_zero. intros g Hg.
  apply filter_In in Hg as [Hg Hfun]. now apply H.
Qed.

Lemma occurrences_filter_cons (i : Issue) (d : Node -> list Issue)
    (p : Node -> bool) (x : Node) (l : list Node) :
  occurrences i (flat_map d (filter p (x :: l)))
  = (if p x then occurrences i (d x) else 0)
    + occurrences i (flat_map d (filter p l)).
Proof.
  simpl. destruct (p x); simpl; [now rewrite occurrences_app | reflexivity].
Qed.

(** The four scans by kind of [detectIssuesInFile] report what one scan
    for function-like constructs reports. *)
Lemma occurrences_detectIssuesInFile (sf : SourceFile)
    (insts : list PrismaClientInstance) (i : Issue) :
  occurrences i (detectIssuesInFile sf insts)
  = occurrencesIn sf i (getDescendants (rootNode sf)).
Proof.
  unfold detectIssuesInFile, functionsOf, getDescendantsOfKind, occurrencesIn.
  rewrite !flat_map_app, !occurrences_app.
  induction (getDescendants (rootNode sf)) as [|x l IH]; [reflexivity|].
  rewrite !occurrences_filter_cons, <- IH.
  unfold isFunctionLike, isKind.
  destruct (getKind (ast x)) as [| | | | lk | ik]; try destruct ik; simpl; lia.
Qed.

Lemma in_occurrences (i : Issue) (l : list Issue) :
  In i l <-> 1 <= occurrences i l.
Proof. unfold occurrences. apply count_occ_In. Qed.

(** Under a node whose classified operations are pairwise distinct, an
    issue of a construct [f] that no construct inside [f] reports is
    reported once by [f] and once by each function-like node between [f]
    and that node, and by nothing else. *)
Lemma occurrencesIn_exact (sf : SourceFile) (i : Issue) (a : Ast) :
  forall anc f,
    In f (descendantsFrom anc a) ->
    isFunctionLike f = true ->
    In i (detectIssuesInFunction sf f) ->
    (forall g, In g (getDescendants f) -> isFunctionLike g = true ->
               ~ In i (detectIssuesInFunction sf g)) ->
    NoDup (map operation (operationsOf sf (mkNode a anc))) ->
    exists pre,
      ancestors f = pre ++ a :: anc
      /\ occurrencesIn sf i (descendantsFrom anc a)
         = 1 + List.length
                 (filter isFunctionLike (ancestorNodesBelow pre (a :: anc))).
Proof.
  induction a as [a IH] using Ast_children_ind.
  intros anc f Hf Hfun Hi Hinner Hnd.
  set (visit := fun c => mkNode c (a :: anc) :: descendantsFrom (a :: anc) c).
  assert (Hbelow : In f (getDescendants (mkNode a anc))) by exact Hf.
  apply in_descendantsFrom in Hf as (c0 & Hc0 & Hf).
  destruct (in_split _ _ Hc0) as (cs1 & cs2 & Hcs).
  assert (Hscan : descendantsFrom anc a
                  = flat_map visit cs1 ++ visit c0 ++ flat_map visit cs2).
  { rewrite descendantsFrom_children, Hcs, flat_map_app. reflexivity. }
  (* the write of the issue is classified in the subtree of [c0] *)
  pose proof Hi as Hw. rewrite detectIssuesInFunction_pairsOf in Hw.
  apply pairsOf_writeOperation in Hw as [Hw _].
  assert (Hf0 : incl (getDescendants f) (visit c0)).
  { destruct Hf as [-> | Hf]; [apply incl_tl, incl_refl|].
    apply incl_tl. now apply descendants_closed. }
  pose proof (operations_within sf f (visit c0) _ Hf0 Hw) as Hw0.
  unfold operationsOf, getDescendantsOfKind, getDescendants in Hnd.
  cbn [ast ancestors] in Hnd.
  rewrite Hscan, !filter_app, !classifyAll_app, !map_app in Hnd.
  assert (Hout : forall cs g,
             In g (flat_map visit cs) ->
             In i (detectIssuesInFunction sf g) ->
             In (writeOperation i)
                (map operation
                   (classifyAll sf
                      (filter (isKind SyntaxKind.CallExpression)
                         (flat_map visit cs))))).
  { intros cs g Hg Hig. rewrite detectIssuesInFunction_pairsOf in Hig.
    apply pairsOf_writeOperation in Hig as [Hig _].
    apply (operations_within sf g); [|exact Hig].
    exact (siblings_closed (a :: anc) cs g Hg). }
  assert (H1 : occurrencesIn sf i (flat_map visit cs1) = 0).
  { apply occurrencesIn_zero. intros g Hg _ Hig.
    apply (NoDup_app_disjoint _ _ _ (writeOperation i) Hnd).
    - exact (Hout cs1 g Hg Hig).
    - apply in_or_app. now left. }
  assert (H2 : occurrencesIn sf i (flat_map visit cs2) = 0).
  { apply occurrencesIn_zero. intros g Hg _ Hig.
    apply NoDup_app_remove_l in Hnd.
    apply (NoDup_app_disjoint _ _ _ (writeOperation i) Hnd).
    - exact Hw0.
    - exact (Hout cs2 g Hg Hig). }
  rewrite Hscan, !occurrencesIn_app, H1, H2.
  unfold visit at 1. rewrite occurrencesIn_cons.
  assert (Hchild : In (mkNode c0 (a :: anc)) (getDescendants (mkNode a anc))).
  { apply in_descendantsFrom. exists c0. auto. }
  assert (Hone : forall g, In g (getDescendants (mkNode a anc)) ->
             In i (detectIssuesInFunction sf g) ->
             occurrences i (detectIssuesInFunction sf g) = 1).
  { intros g Hg Hig. apply occurrences_NoDup; [|exact Hig].
    rewrite detectIssuesInFunction_pairsOf. apply NoDup_pairsOf.
    apply (NoDup_operations_below sf (mkNode a anc) g Hg).
    unfold operationsOf, getDescendantsOfKind, getDescendants.
    cbn [ast ancestors].
    now rewrite Hscan, !filter_app, !classifyAll_app, !map_app. }
  destruct Hf as [-> | Hf].
  - exists []. split; [reflexivity|].
    rewrite Hfun, (Hone _ Hchild Hi).
    change (descendantsFrom (a :: anc) c0)
      with (getDescendants (mkNode c0 (a :: anc))).
    rewrite (occurrencesIn_zero sf i _ Hinner). simpl. lia.
  - assert (Hnd0 : NoDup (map operation
                            (operationsOf sf (mkNode c0 (a :: anc))))).
    { apply (NoDup_operations_below sf (mkNode a anc) _ Hchild).
      unfold operationsOf, getDescendantsOfKind, getDescendants.
      cbn [ast ancestors].
      now rewrite Hscan, !filter_app, !classifyAll_app, !map_app. }
    destruct (IH c0 Hc0 (a :: anc) f Hf Hfun Hi Hinner Hnd0)
      as (pre & Hpre & Hcount).
    exists (pre ++ [c0]). split; [now rewrite <- app_assoc|].
    rewrite Hcount, ancestorNodesBelow_snoc, filter_app, length_app.
    cbn [filter].
    destruct (isFunctionLike (mkNode c0 (a :: anc))) eqn:Hc0fun;
      cbn [List.length]; [|lia].
    assert (Hic : In i (detectIssuesInFunction sf (mkNode c0 (a :: anc)))).
    { apply in_occurrences.
      etransitivity; [apply in_occurrences, Hi|].
      now apply occurrences_segment. }
    rewrite (Hone _ Hchild Hic). lia.
Qed.

(** In a file whose calls classify to pairwise distinct operations, an
    issue of a construct that no construct inside it reports occurs in the
    file's list once for the construct and once per enclosing construct. *)
Lemma occurrences_in_file_exact (sf : SourceFile)
    (insts : list PrismaClientInstance) (f : Node) (i : Issue) :
  In f (functionsOf sf) ->
  In i (detectIssuesInFunction sf f) ->
  (forall g, In g (getDescendants f) -> isFunctionLike g = true ->
             ~ In i (detectIssuesInFunction sf g)) ->
  NoDup (map operation (operationsOf sf (rootNode sf))) ->
  occurrences i (detectIssuesInFile sf insts)
  = 1 + List.length (enclosingFunctions f).
Proof.
  intros Hf Hi Hinner Hnd. apply in_functionsOf in Hf as [Hdesc Hfun].
  rewrite occurrences_detectIssuesInFile.
  destruct (occurrencesIn_exact sf i _ _ f Hdesc Hfun Hi Hinner Hnd)
    as (pre & Hpre & Hcount).
  unfold getDescendants. rewrite Hcount.
  unfold enclosingFunctions, getAncestors. rewrite Hpre.
  cbn [rootNode ast ancestors].
  rewrite ancestorNodesFrom_app, filter_app, length_app. simpl. lia.
Qed.

(* ================================================================== *)
(** ** Further facts about the classifier                              *)
(* ================================================================== *)

Lemma methods_disjoint (m : string) :
  isWriteMethod m = true -> isReadMethod m = false.
Proof.
  unfold isWriteMethod, has, WRITE_METHODS. cbn [existsb]. intros H.
  repeat (apply orb_true_iff in H as [H | H]);
    try discriminate; apply String.eqb_eq in H; subst; reflexivity.
Qed.

(** The text of the expression an access or a call is applied to opens the
    text of the access or call. *)
Lemma includes_receiver (current expression : Ast) (needle : string) :
  receiverOf current = Some expression \/ calleeOf current = Some expression ->
  includes (getText expression) needle = true ->
  includes (getText current) needle = true.
Proof.
  intros [H | H] Hin; destruct current; try discriminate;
    injection H as ->; cbn [getText]; now apply includes_app_l.
Qed.

Lemma checkReplicaUsageFrom_no_hit (current : Ast) :
  includes (getText current) "$primary()" = false ->
  includes (getText current) "$replica()" = false ->
  checkReplicaUsageFrom current = (false, false).
Proof.
  induction current as [a IH] using Ast_children_ind. intros Hp Hr.
  rewrite checkReplicaUsageFrom_eq, Hp, Hr.
  assert (Hsub : forall e needle,
             receiverOf a = Some e \/ calleeOf a = Some e ->
             includes (getText a) needle = false ->
             includes (getText e) needle = false).
  { intros e needle He Ha.
    destruct (includes (getText e) needle) eqn:Hin; [|reflexivity].
    rewrite (includes_receiver a e needle He Hin) in Ha. discriminate. }
  destruct a as [| e n | st e args | | |]; try reflexivity.
  - apply IH; [simpl; auto | |]; apply (Hsub e); simpl; auto.
  - apply IH; [simpl; auto | |]; apply (Hsub e); simpl; auto.
Qed.

(** The walk is decided by the text of the node it starts from. *)
Lemma checkReplicaUsageFrom_text (current : Ast) :
  checkReplicaUsageFrom current
  = (includes (getText current) "$primary()",
     negb (includes (getText current) "$primary()")
     && includes (getText current) "$replica()").
Proof.
  destruct (includes (getText current) "$primary()") eqn:Hp.
  - now rewrite checkReplicaUsageFrom_eq, Hp.
  - destruct (includes (getText current) "$replica()") eqn:Hr.
    + now rewrite checkReplicaUsageFrom_eq, Hp, Hr.
    + now apply checkReplicaUsageFrom_no_hit.
Qed.

Lemma isInTransactionFrom_existsb (parents : list Ast) :
  isInTransactionFrom parents = existsb isTransactionCall parents.
Proof.
  induction parents as [|p rest IH]; simpl; [reflexivity|].
  now destruct (isTransactionCall p).
Qed.

Lemma map_ast_ancestorNodesFrom (parents : list Ast) :
  map ast (ancestorNodesFrom parents) = parents.
Proof.
  induction parents as [|p rest IH]; simpl; [reflexivity | now rewrite IH].
Qed.

Lemma isInTransaction_iff (h : Node) :
  isInTransaction h = true <->
  exists t, In t (getAncestors h) /\ isTransactionCall (ast t) = true.
Proof.
  unfold isInTransaction, getAncestors.
  rewrite isInTransactionFrom_existsb, existsb_exists. split.
  - intros (p & Hp & Ht).
    rewrite <- (map_ast_ancestorNodesFrom (ancestors h)) in Hp.
    apply in_map_iff in Hp as (t & <- & Hin). now exists t.
  - intros (t & Hin & Ht). exists (ast t). split; [|exact Ht].
    rewrite <- (map_ast_ancestorNodesFrom (ancestors h)). now apply in_map.
Qed.

Lemma isInTransactionFrom_below (pre parents : list Ast) :
  isInTransactionFrom parents = true ->
  isInTransactionFrom (pre ++ parents) = true.
Proof.
  intros H. induction pre as [|p pre IH]; simpl; [exact H|].
  now destruct (isTransactionCall p).
Qed.

(** Below a transaction call, or below a node in a transaction, every node
    is in a transaction. *)
Lemma isInTransaction_descendant (g h : Node) :
  isTransactionCall (ast g) = true \/ isInTransaction g = true ->
  In h (getDescendants g) ->
  isInTransaction h = true.
Proof.
  intros Hg Hh. destruct (descendant_ancestors _ _ _ Hh) as (pre & Hpre).
  unfold isInTransaction. rewrite Hpre.
  destruct Hg as [Hg | Hg].
  - now apply isInTransactionFrom_app.
  - apply isInTransactionFrom_below. simpl.
    destruct (isTransactionCall (ast g)); [reflexivity | exact Hg].
Qed.

Lemma classified_inTransaction (sf : SourceFile) (n : Node)
    (op : PrismaOperation) :
  classifyOperation sf n = Some op -> inTransaction op = isInTransaction n.
Proof.
  intros H. apply classifyOperation_inv in H
    as (start & inner & name & m & args & _ & _ & _ & _ & _ & ->).
  reflexivity.
Qed.

(* ================================================================== *)
(** ** Further facts about the pairing                                 *)
(* ================================================================== *)

Lemma pairsOf_no_write (ops : list PrismaOperation) :
  (forall op, In op ops -> isUnguardedWrite op = false) -> pairsOf ops = [].
Proof.
  induction ops as [|w rest IH]; simpl; [reflexivity|]. intros H.
  rewrite (H w (or_introl eq_refl)). simpl. apply IH. intros op Hop.
  apply H. now right.
Qed.

Lemma pairsOf_no_read (ops : list PrismaOperation) :
  (forall op, In op ops -> isUnguardedRead op = false) -> pairsOf ops = [].
Proof.
  induction ops as [|w rest IH]; simpl; [reflexivity|]. intros H.
  rewrite IH by (intros op Hop; apply H; now right).
  rewrite app_nil_r.
  destruct (isUnguardedWrite w); [|reflexivity].
  assert (Hnone : filter isUnguardedRead rest = []).
  { clear IH. induction rest as [|r rest IHr]; simpl; [reflexivity|].
    rewrite (H r (or_intror (or_introl eq_refl))). apply IHr.
    intros op [<- | Hop]; apply H; simpl; auto. }
  now rewrite Hnone.
Qed.

Lemma length_pairsOf_bound (ops : list PrismaOperation) :
  List.length (pairsOf ops)
  <= List.length (filter isUnguardedWrite ops)
     * List.length (filter isUnguardedRead ops).
Proof.
  induction ops as [|w rest IH]; simpl; [lia|].
  rewrite length_app.
  destruct (isUnguardedWrite w) eqn:Hw.
  - rewrite (unguarded_write_not_read _ Hw), length_map. simpl. lia.
  - simpl. destruct (isUnguardedRead w); simpl; nia.
Qed.

(** In a sequence without repeats, an operation is not both before and
    behind another. *)
Lemma NoDup_one_order (A : Type) (x y : A) :
  forall pre mid post pre' mid' post' : list A,
    NoDup (pre ++ x :: mid ++ y :: post) ->
    pre ++ x :: mid ++ y :: post = pre' ++ y :: mid' ++ x :: post' ->
    False.
Proof.
  induction pre as [|a pre IH]; intros mid post pre' mid' post' Hnd Heq.
  - destruct pre' as [|b pre']; simpl in *.
    + injection Heq as -> Htail. inversion Hnd as [|? ? Hx _]; subst.
      apply Hx. rewrite Htail. apply in_or_app. right. now left.
    + injection Heq as <- Htail. inversion Hnd as [|? ? Hx _]; subst.
      apply Hx. rewrite Htail. apply in_or_app. right. right.
      apply in_or_app. right. now left.
  - destruct pre' as [|b pre']; simpl in *.
    + injection Heq as -> Htail. inversion Hnd as [|? ? Hy _]; subst.
      apply Hy. apply in_or_app. right. right. apply in_or_app. right.
      now left.
    + injection Heq as <- Htail. inversion Hnd as [|? ? _ Hrest]; subst.
      exact (IH _ _ _ _ _ Hrest Htail).
Qed.

Lemma pairsOf_never_backwards (ops pre mid post : list PrismaOperation)
    (w r : PrismaOperation) :
  NoDup ops ->
  ops = pre ++ r :: mid ++ w :: post ->
  ~ In (makeIssue w r) (pairsOf ops).
Proof.
  intros Hnd Hops Hin.
  apply in_pairsOf in Hin as (pre' & w' & mid' & r' & post' & Heq & _ & _ & Hi).
  apply makeIssue_inj in Hi as [<- <-].
  rewrite Hops in Hnd, Heq.
  exact (NoDup_one_order _ r w pre mid post pre' mid' post' Hnd Heq).
Qed.

(** A classified operation in the middle of a sequence comes from a call
    in the middle of the scan. *)
Lemma classifyAll_split (sf : SourceFile) (l : list Node) :
  forall (before : list OperationWithNode) (e : OperationWithNode)
         (after : list OperationWithNode),
    classifyAll sf l = before ++ e :: after ->
    exists lb la,
      l = lb ++ node e :: la
      /\ classifyAll sf lb = before
      /\ classifyAll sf la = after
      /\ classifyOperation sf (node e) = Some (operation e).
Proof.
  induction l as [|n l IH]; intros before e after H; simpl in H.
  - destruct before; discriminate.
  - destruct (classifyOperation sf n) as [op|] eqn:Hn.
    + destruct before as [|b before]; simpl in H.
      * injection H as <- <-. exists [], l. simpl. auto.
      * injection H as <- H.
        destruct (IH _ _ _ H) as (lb & la & -> & Hb & Ha & Hc).
        exists (n :: lb), la. simpl. rewrite Hn, Hb. auto.
    + destruct (IH _ _ _ H) as (lb & la & -> & Hb & Ha & Hc).
      exists (n :: lb), la. simpl. rewrite Hn. auto.
Qed.

Lemma classified_is_call (sf : SourceFile) (n : Node) (op : PrismaOperation) :
  classifyOperation sf n = Some op ->
  isKind SyntaxKind.CallExpression n = true.
Proof.
  intros H. apply classifyOperation_inv in H
    as (start & inner & name & m & args & Hast & _).
  unfold isKind. now rewrite Hast.
Qed.

Lemma classified_routing (sf : SourceFile) (n : Node) (op : PrismaOperation) :
  classifyOperation sf n = Some op ->
  usesPrimary op = includes (routingText (ast n)) "$primary()"
  /\ usesReplica op
     = negb (includes (routingText (ast n)) "$primary()")
       && includes (routingText (ast n)) "$replica()".
Proof.
  intros H. apply classifyOperation_inv in H
    as (start & inner & name & m & args & Hast & _ & _ & _ & _ & ->).
  rewrite Hast. unfold classified. cbn [usesPrimary usesReplica routingText].
  now rewrite checkReplicaUsageFrom_text.
Qed.

Lemma classified_file (sf : SourceFile) (n : Node) (op : PrismaOperation) :
  classifyOperation sf n = Some op -> file (location op) = getFilePath sf.
Proof.
  intros H. apply classifyOperation_inv in H
    as (start & inner & name & m & args & _ & _ & _ & _ & _ & ->).
  reflexivity.
Qed.

(** The operations of a construct below a transaction call, or in a
    transaction, are all in a transaction. *)
Lemma operations_in_transaction (sf : SourceFile) (f : Node)
    (op : PrismaOperation) :
  isTransactionCall (ast f) = true \/ isInTransaction f = true ->
  In op (map operation (operationsOf sf f)) ->
  inTransaction op = true.
Proof.
  intros Hf Hop. apply operationsOf_classified in Hop as (n & Hn & Hc).
  rewrite (classified_inTransaction sf n op Hc).
  apply filter_In in Hn as [Hn _].
  exact (isInTransaction_descendant f n Hf Hn).
Qed.

(** The issues of a file come from its constructs' sequences. *)
Lemma in_detectIssuesInFile (sf : SourceFile)
    (insts : list PrismaClientInstance) (i : Issue) :
  In i (detectIssuesInFile sf insts) <->
  exists f pre w mid r post,
    In f (functionsOf sf)
    /\ map operation (operationsOf sf f) = pre ++ w :: mid ++ r :: post
    /\ isUnguardedWrite w = true /\ isUnguardedRead r = true
    /\ i = makeIssue w r.
Proof.
  unfold detectIssuesInFile. rewrite in_flat_map. split.
  - intros (f & Hf & Hi). rewrite detectIssuesInFunction_pairsOf in Hi.
    apply in_pairsOf in Hi as (pre & w & mid & r & post & H).
    now exists f, pre, w, mid, r, post.
  - intros (f & pre & w & mid & r & post & Hf & H).
    exists f. split; [exact Hf|].
    rewrite detectIssuesInFunction_pairsOf. apply in_pairsOf.
    now exists pre, w, mid, r, post.
Qed.

(* ================================================================== *)
(** ** Strings: suffixes and joined texts                              *)
(* ================================================================== *)

Lemma string_length_app (a b : string) :
  String.length (a ++ b) = String.length a + String.length b.
Proof. induction a as [|c a IH]; simpl; [reflexivity | now rewrite IH]. Qed.

Lemma substring_skip (a b : string) (m : nat) :
  substring (String.length a) m (a ++ b) = substring 0 m b.
Proof. induction a as [|c a IH]; simpl; [reflexivity | exact IH]. Qed.

Lemma substring_all (s : string) : substring 0 (String.length s) s = s.
Proof. induction s as [|c s IH]; simpl; [reflexivity | now rewrite IH]. Qed.

Lemma substring_split (t : string) :
  forall k, k <= String.length t ->
  t = (substring 0 k t ++ substring k (String.length t - k) t)%string.
Proof.
  induction t as [|c t IH]; intros k Hk; simpl in Hk.
  - assert (k = 0) by lia. subst. reflexivity.
  - destruct k as [|k].
    + cbn [substring String.length Nat.sub append].
      now rewrite substring_all.
    + cbn [substring String.length Nat.sub append].
      rewrite <- (IH k) by lia. reflexivity.
Qed.

Lemma endsWith_iff (text suffix : string) :
  endsWith text suffix = true <-> exists base, text = (base ++ suffix)%string.
Proof.
  unfold endsWith. split.
  - destruct (Nat.leb (String.length suffix) (String.length text)) eqn:Hle;
      [|discriminate].
    apply Nat.leb_le in Hle. intros H. apply String.eqb_eq in H.
    exists (substring 0 (String.length text - String.length suffix) text).
    pose proof (substring_split text
                  (String.length text - String.length suffix)
                  (Nat.le_sub_l _ _)) as Hs.
    replace (String.length text
             - (String.length text - String.length suffix))
      with (String.length suffix) in Hs by lia.
    rewrite H in Hs. exact Hs.
  - intros (base & ->). rewrite string_length_app.
    replace (Nat.leb (String.length suffix)
               (String.length base + String.length suffix)) with true
      by (symmetry; apply Nat.leb_le; lia).
    replace (String.length base + String.length suffix - String.length suffix)
      with (String.length base) by lia.
    rewrite substring_skip, substring_all. apply String.eqb_refl.
Qed.


(* ================================================================== *)
(** ** Runs                                                            *)
(* ================================================================== *)

Lemma analyze_missing_path (env : Environment) (options : AnalyzerOptions) :
  pathExists env (projectPath options) = false ->
  analyze env options
  = ([], inl ("Project path does not exist: " ++ projectPath options)%string).
Proof. intros H. unfold analyze. now rewrite H. Qed.

Lemma analyze_not_directory (env : Environment) (options : AnalyzerOptions) :
  pathExists env (projectPath options) = true ->
  isDirectory env (projectPath options) = false ->
  analyze env options
  = ([], inl ("Project path is not a directory: "
              ++ projectPath options)%string).
Proof. intros H1 H2. unfold analyze. now rewrite H1, H2. Qed.

Lemma analyze_result (env : Environment) (options : AnalyzerOptions) :
  pathExists env (projectPath options) = true ->
  isDirectory env (projectPath options) = true ->
  let files :=
    getSourceFiles env (projectPath options ++ "/tsconfig.json")%string in
  let found :=
    match detectPrismaClients files with
    | [] => []
    | _ :: _ => flat_map (fun sf => detectIssuesInFile sf []) files
    end in
  snd (analyze env options)
  = inr (mkAnalysisResult
           (mkSummary (List.length found) (List.length files) "0s") found).
Proof.
  intros H1 H2 files found. unfold analyze. rewrite H1, H2. cbn [negb].
  fold files. cbv zeta. subst found.
  destruct (detectPrismaClients files); reflexivity.
Qed.

(** A write and a read of a sequence, in that order, come from two calls
    of the scan, in that order. *)
Lemma operations_split_calls (sf : SourceFile) (calls : list Node)
    (pre mid post : list PrismaOperation) (w r : PrismaOperation) :
  map operation (classifyAll sf calls) = pre ++ w :: mid ++ r :: post ->
  exists cpre nw cmid nr cpost,
    calls = cpre ++ nw :: cmid ++ nr :: cpost
    /\ classifyOperation sf nw = Some w
    /\ classifyOperation sf nr = Some r.
Proof.
  intros H.
  apply map_eq_app in H as (opre & orest & Hall & _ & Hrest).
  apply map_eq_cons in Hrest as (ew & orest' & -> & Hew & Hrest).
  apply map_eq_app in Hrest as (omid & orest2 & -> & _ & Hrest).
  apply map_eq_cons in Hrest as (er & opost & -> & Her & _).
  apply classifyAll_split in Hall as (cpre & la & -> & _ & Hla & Hcw).
  apply classifyAll_split in Hla as (cmid & cpost & -> & _ & _ & Hcr).
  exists cpre, (node ew), cmid, (node er), cpost.
  rewrite <- Hew, <- Her. auto.
Qed.

(* ================================================================== *)
(** ** The client detector                                             *)
(* ================================================================== *)

Lemma in_detectPrismaClients (files : list SourceFile)
    (inst : PrismaClientInstance) :
  In inst (detectPrismaClients files) <->
  exists sf d,
    In sf files
    /\ In d (getDescendants (rootNode sf))
    /\ isKind SyntaxKind.VariableDeclaration d = true
    /\ isPrismaClientDeclaration (ast d) = true
    /\ inst = mkPrismaClientInstance
                (declarationName (ast d)) (getFilePath sf)
                (fst (getLineAndColumnAtPos sf (declarationStart (ast d))))
                (checkReadReplicaExtension (ast d)).
Proof.
  unfold detectPrismaClients, clientsOfFile, getDescendantsOfKind. split.
  - intros H. apply in_flat_map in H as (sf & Hsf & H).
    apply in_flat_map in H as (d & Hd & H).
    apply filter_In in Hd as [Hd Hk].
    destruct (isPrismaClientDeclaration (ast d)) eqn:Hp; [|contradiction].
    destruct H as [<- | []]. exists sf, d. auto.
  - intros (sf & d & Hsf & Hd & Hk & Hp & ->).
    apply in_flat_map. exists sf. split; [exact Hsf|].
    apply in_flat_map. exists d. split; [now apply filter_In|].
    rewrite Hp. now left.
Qed.



(* ================================================================== *)
(** ** Properties of the pairing                                       *)
(* ================================================================== *)

(** C1.  A construct whose operation sequence is [w] writes outside any
    transaction followed by [r] reads outside any transaction and without
    primary routing yields one issue per (write, read) pair, in loop order:
    [w * r] issues, not the number of nearest pairs. *)
Theorem C1_pairing_is_cross_product
    (sf : SourceFile) (func : Node) (ws rs : list PrismaOperation) :
  map operation (operationsOf sf func) = ws ++ rs ->
  forallb isUnguardedWrite ws = true ->
  forallb isUnguardedRead rs = true ->
  detectIssuesInFunction sf func = flat_map (fun w => map (makeIssue w) rs) ws
  /\ List.length (detectIssuesInFunction sf func)
     = List.length ws * List.length rs.
Proof.
  intros Hops Hws Hrs.
  assert (H : detectIssuesInFunction sf func
              = flat_map (fun w => map (makeIssue w) rs) ws).
  { rewrite detectIssuesInFunction_pairsOf, Hops.
    now apply pairsOf_writes_then_reads. }
  split; [exact H|]. rewrite H. apply length_cross.
Qed.

(** Two writes then three reads: six issues. *)
Lemma C1_two_writes_three_reads :
  let sf := Sample.crossProductFile in
  let func := Sample.topLevel sf Sample.twoWritesThreeReads in
  let ops := map operation (operationsOf sf func) in
  ops = firstn 2 ops ++ skipn 2 ops
  /\ forallb isUnguardedWrite (firstn 2 ops) = true
  /\ forallb isUnguardedRead (skipn 2 ops) = true
  /\ List.length (detectIssuesInFunction sf func) = 2 * 3.
Proof.
  intros sf func ops.
  split; [vm_compute; reflexivity|].
  split; [vm_compute; reflexivity|].
  split; [vm_compute; reflexivity|].
  apply (C1_pairing_is_cross_product
           Sample.crossProductFile
           (Sample.topLevel Sample.crossProductFile Sample.twoWritesThreeReads)
           (firstn 2 (map operation
                        (operationsOf Sample.crossProductFile
                           (Sample.topLevel Sample.crossProductFile
                              Sample.twoWritesThreeReads))))
           (skipn 2 (map operation
                       (operationsOf Sample.crossProductFile
                          (Sample.topLevel Sample.crossProductFile
                             Sample.twoWritesThreeReads)))));
    vm_compute; reflexivity.
Defined.

(** C2.  Every issue the detector produces, for a construct, for a file
    and in the result of a run, has a write outside any transaction and a
    read outside any transaction and without primary routing. *)
Theorem C2_issues_respect_guards :
  (forall sf func, Forall respectsGuards (detectIssuesInFunction sf func))
  /\ (forall sf insts, Forall respectsGuards (detectIssuesInFile sf insts))
  /\ (forall env options,
        match snd (analyze env options) with
        | inr result => Forall respectsGuards (issues result)
        | inl _ => True
        end).
Proof.
  split; [|split].
  - intros sf func. rewrite detectIssuesInFunction_pairsOf.
    apply pairsOf_respectsGuards.
  - apply detectIssuesInFile_respectsGuards.
  - intros env options. unfold analyze.
    destruct (negb (pathExists env (projectPath options))); [exact I|].
    destruct (negb (isDirectory env (projectPath options))); [exact I|].
    cbv zeta.
    destruct (Nat.eqb _ 0); cbn [snd issues]; [constructor|].
    apply Forall_flat_map. intros sf.
    apply detectIssuesInFile_respectsGuards.
Qed.

(** C8.  A read that carries the replica flag, outside any transaction
    and without primary routing, behind a write outside any transaction in
    the same sequence is reported; and clearing the replica flag of every
    operation of the sequence changes nothing in what the loops emit but
    that flag. *)
Theorem C8_replica_flag_is_not_a_filter
    (sf : SourceFile) (func : Node)
    (pre mid post : list PrismaOperation) (w r : PrismaOperation) :
  map operation (operationsOf sf func) = pre ++ w :: mid ++ r :: post ->
  type w = write -> inTransaction w = false ->
  type r = read -> inTransaction r = false -> usesPrimary r = false ->
  usesReplica r = true ->
  In (makeIssue w r) (detectIssuesInFunction sf func)
  /\ pairOperations (map entryWithoutReplicaFlag (operationsOf sf func))
     = map issueWithoutReplicaFlag (detectIssuesInFunction sf func).
Proof.
  intros Hops Hw1 Hw2 Hr1 Hr2 Hr3 _. split.
  - rewrite detectIssuesInFunction_pairsOf. apply in_pairsOf.
    exists pre, w, mid, r, post. repeat split.
    + exact Hops.
    + now apply isUnguardedWrite_iff.
    + now apply isUnguardedRead_iff.
  - apply pairOperations_withoutReplicaFlag.
Qed.

(** [updateAndReadWithReplica] of the fixture: the [$replica()] read is
    reported. *)
Lemma C8_explicit_replica_read :
  let sf := Sample.exampleWithIssues in
  let func := Sample.topLevel sf Sample.updateAndReadWithReplica in
  let w := classified sf [] (Sample.at_ 27 9) Sample.prisma "user" "update" in
  let r := classified sf [] (Sample.at_ 33 22)
             (Sample.replicaOf 33 22 Sample.prisma) "user" "findUnique" in
  usesReplica r = true
  /\ In (makeIssue w r) (detectIssuesInFunction sf func).
Proof.
  intros sf func w r.
  split; [vm_compute; reflexivity|].
  apply (C8_replica_flag_is_not_a_filter
           Sample.exampleWithIssues
           (Sample.topLevel Sample.exampleWithIssues
              Sample.updateAndReadWithReplica)
           [] [] []
           (classified Sample.exampleWithIssues [] (Sample.at_ 27 9)
              Sample.prisma "user" "update")
           (classified Sample.exampleWithIssues [] (Sample.at_ 33 22)
              (Sample.replicaOf 33 22 Sample.prisma) "user" "findUnique"));
    vm_compute; reflexivity.
Defined.

(** C9.  A construct whose operation sequence is [create], [findFirst],
    [update], [findUnique], none in a transaction and none routed to the
    primary, yields exactly three issues: [create] with [findFirst],
    [create] with [findUnique] and [update] with [findUnique]; [update] is
    not paired with the [findFirst] before it. *)
Theorem C9_create_findFirst_update_findUnique
    (sf : SourceFile) (func : Node) (c f u q : PrismaOperation) :
  map operation (operationsOf sf func) = [c; f; u; q] ->
  method c = "create" -> method f = "findFirst" ->
  method u = "update" -> method q = "findUnique" ->
  forallb unguarded [c; f; u; q] = true ->
  detectIssuesInFunction sf func
  = [makeIssue c f; makeIssue c q; makeIssue u q]
  /\ ~ In (makeIssue u f) (detectIssuesInFunction sf func).
Proof.
  intros Hops Hc Hf Hu Hq Hflags.
  assert (Htype : forall op, In op [c; f; u; q] ->
            type op = if isWriteMethod (method op) then write else read).
  { intros op Hop. rewrite <- Hops in Hop.
    apply operationsOf_classified in Hop as (n & _ & Hn).
    exact (classified_type sf n op Hn). }
  pose proof (Htype c (or_introl eq_refl)) as Tc.
  pose proof (Htype f (or_intror (or_introl eq_refl))) as Tf.
  pose proof (Htype u (or_intror (or_intror (or_introl eq_refl)))) as Tu.
  pose proof (Htype q (or_intror (or_intror (or_intror (or_introl eq_refl)))))
    as Tq.
  rewrite Hc in Tc. rewrite Hf in Tf. rewrite Hu in Tu. rewrite Hq in Tq.
  change (type c = write) in Tc. change (type f = read) in Tf.
  change (type u = write) in Tu. change (type q = read) in Tq.
  cbn [forallb] in Hflags.
  destruct (andb_prop _ _ Hflags) as [Fc F1].
  destruct (andb_prop _ _ F1) as [Ff F2].
  destruct (andb_prop _ _ F2) as [Fu F3].
  destruct (andb_prop _ _ F3) as [Fq _].
  assert (Wc : isUnguardedWrite c = true).
  { unfold isUnguardedWrite. rewrite Tc. now apply andb_prop in Fc. }
  assert (Wu : isUnguardedWrite u = true).
  { unfold isUnguardedWrite. rewrite Tu. now apply andb_prop in Fu. }
  assert (Rf : isUnguardedRead f = true).
  { unfold isUnguardedRead. rewrite Tf. exact Ff. }
  assert (Rq : isUnguardedRead q = true).
  { unfold isUnguardedRead. rewrite Tq. exact Fq. }
  assert (Heq : detectIssuesInFunction sf func
                = [makeIssue c f; makeIssue c q; makeIssue u q]).
  { rewrite detectIssuesInFunction_pairsOf, Hops.
    cbn [pairsOf filter].
    rewrite Wc, Wu, Rf, Rq.
    rewrite (unguarded_write_not_read _ Wu).
    rewrite (unguarded_read_not_write _ Rf), (unguarded_read_not_write _ Rq).
    reflexivity. }
  split; [exact Heq|]. rewrite Heq.
  intros [H | [H | [H | []]]];
    apply (f_equal (fun i => (method (writeOperation i),
                              method (readOperation i)))) in H;
    cbn in H; rewrite ?Hc, ?Hf, ?Hu, ?Hq in H; discriminate.
Qed.

(** [multipleOperations] of the fixture: three issues. *)
Lemma C9_multipleOperations :
  let sf := Sample.exampleWithIssues in
  let func := Sample.topLevel sf Sample.multipleOperations in
  let c := classified sf [] (Sample.at_ 75 9) Sample.prisma "user" "create" in
  let f := classified sf [] (Sample.at_ 80 23) Sample.prisma "user" "findFirst" in
  let u := classified sf [] (Sample.at_ 85 9) Sample.prisma "user" "update" in
  let q := classified sf [] (Sample.at_ 91 23) Sample.prisma "user" "findUnique" in
  map operation (operationsOf sf func) = [c; f; u; q]
  /\ detectIssuesInFunction sf func
     = [makeIssue c f; makeIssue c q; makeIssue u q]
  /\ ~ In (makeIssue u f) (detectIssuesInFunction sf func).
Proof.
  intros sf func c f u q.
  split; [vm_compute; reflexivity|].
  apply (C9_create_findFirst_update_findUnique
           Sample.exampleWithIssues
           (Sample.topLevel Sample.exampleWithIssues Sample.multipleOperations)
           (classified Sample.exampleWithIssues [] (Sample.at_ 75 9)
              Sample.prisma "user" "create")
           (classified Sample.exampleWithIssues [] (Sample.at_ 80 23)
              Sample.prisma "user" "findFirst")
           (classified Sample.exampleWithIssues [] (Sample.at_ 85 9)
              Sample.prisma "user" "update")
           (classified Sample.exampleWithIssues [] (Sample.at_ 91 23)
              Sample.prisma "user" "findUnique"));
    vm_compute; reflexivity.
Defined.

(* ================================================================== *)
(** ** Properties of the classifier                                    *)
(* ================================================================== *)





(** C7.  Every node below a call whose callee is a property access named
    [$transaction], at whatever depth, is in a transaction; an operation
    classified there carries [inTransaction = true]. *)
Theorem C7_inside_transaction_at_any_depth
    (sf : SourceFile) (transaction h : Node) :
  isTransactionCall (ast transaction) = true ->
  In h (getDescendants transaction) ->
  isInTransaction h = true
  /\ forall op, classifyOperation sf h = Some op -> inTransaction op = true.
Proof.
  intros Ht Hh.
  assert (Hin : isInTransaction h = true).
  { destruct (descendant_ancestors _ _ _ Hh) as (pre & Hpre).
    unfold isInTransaction. rewrite Hpre.
    now apply isInTransactionFrom_app. }
  split; [exact Hin|]. intros op Hop.
  apply classifyOperation_inv in Hop
    as (start & inner & name & m & args & _ & _ & _ & _ & _ & ->).
  exact Hin.
Qed.

(** C10.  An operation the classifier returns never has both routing
    flags; a node whose text contains [$primary()] sets the primary flag
    alone, whatever else the text contains. *)
Theorem C10_routing_flags_exclusive
    (sf : SourceFile) (n : Node) (op : PrismaOperation) :
  classifyOperation sf n = Some op ->
  usesPrimary op && usesReplica op = false
  /\ (forall current,
         includes (getText current) "$primary()" = true ->
         checkReplicaUsageFrom current = (true, false)).
Proof.
  intros Hop. split.
  - apply classifyOperation_inv in Hop
      as (start & inner & name & m & args & _ & _ & _ & _ & _ & ->).
    apply checkReplicaUsageFrom_exclusive.
  - intros current H. now rewrite checkReplicaUsageFrom_eq, H.
Qed.

(** The [$replica()] read of the fixture has the replica flag alone. *)
Lemma C10_replica_read_of_fixture :
  let op := classified Sample.exampleWithIssues [] (Sample.at_ 33 22)
              (Sample.replicaOf 33 22 Sample.prisma) "user" "findUnique" in
  usesReplica op = true
  /\ usesPrimary op && usesReplica op = false.
Proof.
  intros op. split; [reflexivity|].
  apply (C10_routing_flags_exclusive Sample.exampleWithIssues
           (mkNode (Sample.storeCall 33 22 (Sample.replicaOf 33 22 Sample.prisma)
                      "user" "findUnique") [])
           (classified Sample.exampleWithIssues [] (Sample.at_ 33 22)
              (Sample.replicaOf 33 22 Sample.prisma) "user" "findUnique")).
  reflexivity.
Defined.

(** The [$transaction] callback of the fixture: the [create] inside it is
    classified as in a transaction. *)
Lemma C7_create_in_transaction_callback :
  isTransactionCall (ast Sample.transactionNode) = true
  /\ (exists op,
         classifyOperation Sample.exampleWithIssues Sample.createInTransaction
         = Some op /\ method op = "create")
  /\ isInTransaction Sample.createInTransaction = true
  /\ forall op,
       classifyOperation Sample.exampleWithIssues Sample.createInTransaction
       = Some op -> inTransaction op = true.
Proof.
  split; [reflexivity|]. split; [eexists; split; vm_compute; reflexivity|].
  apply (C7_inside_transaction_at_any_depth Sample.exampleWithIssues
           Sample.transactionNode Sample.createInTransaction);
    [reflexivity|].
  apply (proj1 (filter_In (isKind SyntaxKind.CallExpression)
                  Sample.createInTransaction
                  (getDescendants Sample.transactionNode))).
  apply nth_In. vm_compute. lia.
Defined.

(* ================================================================== *)
(** ** Nested constructs and the client detector                       *)
(* ================================================================== *)

(** C4.  An issue of a function-like construct of a file is emitted again,
    as often, for every function-like construct around it, each of which is
    a construct of the file in its own right; so the file's issue list holds
    it once for the construct's own scope and once more per enclosing scope
    level.  The count is exact for the innermost construct that reports the
    pair, in a file whose calls classify to pairwise distinct operations. *)
Theorem C4_nested_constructs_repeat_issues
    (sf : SourceFile) (insts : list PrismaClientInstance) (f : Node)
    (i : Issue) :
  In f (functionsOf sf) ->
  (forall g, In g (enclosingFunctions f) ->
     In g (functionsOf sf)
     /\ In f (getDescendants g)
     /\ occurrences i (detectIssuesInFunction sf f)
        <= occurrences i (detectIssuesInFunction sf g))
  /\ (1 + List.length (enclosingFunctions f))
     * occurrences i (detectIssuesInFunction sf f)
     <= occurrences i (detectIssuesInFile sf insts)
  /\ (In i (detectIssuesInFunction sf f) ->
      (forall g, In g (getDescendants f) -> isFunctionLike g = true ->
                 ~ In i (detectIssuesInFunction sf g)) ->
      NoDup (map operation (operationsOf sf (rootNode sf))) ->
      occurrences i (detectIssuesInFile sf insts)
      = 1 + List.length (enclosingFunctions f)).
Proof.
  intros Hf. pose proof Hf as Hf'.
  apply in_functionsOf in Hf as [Hdesc Hfun].
  assert (Hencl : forall g, In g (enclosingFunctions f) ->
            In g (functionsOf sf)
            /\ In f (getDescendants g)
            /\ occurrences i (detectIssuesInFunction sf f)
               <= occurrences i (detectIssuesInFunction sf g)).
  { intros g Hg.
    destruct (enclosing_function_in_file sf f g Hdesc Hg) as [Hgf Hbelow].
    repeat split; try assumption.
    now apply occurrences_segment. }
  split; [exact Hencl|]. split.
  - unfold detectIssuesInFile.
    change (1 + List.length (enclosingFunctions f))
      with (List.length (f :: enclosingFunctions f)).
    apply occurrences_flat_map_ge.
    + pose proof (NoDup_self_and_ancestors f) as Hnd.
      inversion Hnd as [|x l Hx Hl]; subst.
      constructor.
      * intros Hin. apply filter_In in Hin as [Hin _]. contradiction.
      * now apply NoDup_filter.
    + intros g [<- | Hg].
      * apply in_functionsOf. auto.
      * now apply Hencl.
    + intros g [<- | Hg]; [lia|]. now apply Hencl.
  - intros Hi Hinner Hnd.
    now apply occurrences_in_file_exact.
Qed.

(** A write and a read in a callback two function levels deep: the pair is
    reported three times. *)
Lemma C4_callback_two_levels_deep :
  In Sample.innermostNode (functionsOf Sample.nestedFile)
  /\ List.length (enclosingFunctions Sample.innermostNode) = 2
  /\ In Sample.nestedIssue
       (detectIssuesInFunction Sample.nestedFile Sample.innermostNode)
  /\ occurrences Sample.nestedIssue
       (detectIssuesInFile Sample.nestedFile [])
     = 1 + List.length (enclosingFunctions Sample.innermostNode).
Proof.
  assert (Hin : In Sample.innermostNode (functionsOf Sample.nestedFile)).
  { unfold functionsOf. apply in_or_app. right. apply in_or_app. left.
    apply nth_In. vm_compute. lia. }
  assert (Hi : In Sample.nestedIssue
                 (detectIssuesInFunction Sample.nestedFile
                    Sample.innermostNode)).
  { vm_compute. left. reflexivity. }
  split; [exact Hin|].
  split; [vm_compute; reflexivity|].
  split; [exact Hi|].
  apply (C4_nested_constructs_repeat_issues Sample.nestedFile []
           Sample.innermostNode Sample.nestedIssue Hin).
  - exact Hi.
  - intros g Hg Hfun. vm_compute in Hg.
    repeat (destruct Hg as [<- | Hg]; [discriminate Hfun|]).
    contradiction.
  - set (ops := map operation
                  (operationsOf Sample.nestedFile (rootNode Sample.nestedFile))).
    assert (E : nodup PrismaOperation_eq_dec ops = ops)
      by (vm_compute; reflexivity).
    rewrite <- E. apply NoDup_nodup.
Defined.




(* ================================================================== *)
(** ** Further properties: the classifier                              *)
(* ================================================================== *)

(** X1.  The type of a classified operation is decided by its method:
    [write] exactly for the methods of the write set, [read] exactly for
    those of the read set; no method is in both sets. *)
Theorem X1_type_agrees_with_method
    (sf : SourceFile) (n : Node) (op : PrismaOperation) :
  classifyOperation sf n = Some op ->
  (type op = write <-> isWriteMethod (method op) = true)
  /\ (type op = read <-> isReadMethod (method op) = true)
  /\ (forall m, isWriteMethod m && isReadMethod m = false).
Proof.
  intros H. pose proof (classified_type sf n op H) as Ht.
  apply classifyOperation_inv in H
    as (start & inner & name & m & args & _ & Hm & _ & _ & _ & ->).
  cbn [method classified type] in *.
  assert (Hdis : forall m0, isWriteMethod m0 && isReadMethod m0 = false).
  { intros m0. destruct (isWriteMethod m0) eqn:Hw; [|reflexivity].
    now rewrite (methods_disjoint m0 Hw). }
  repeat split; try exact Hdis.
  - destruct (isWriteMethod m); [reflexivity | discriminate].
  - intros Hw. now rewrite Hw.
  - destruct (isWriteMethod m) eqn:Hw; [discriminate|]. intros _.
    exact Hm.
  - intros Hr. destruct (isWriteMethod m) eqn:Hw; [|reflexivity].
    rewrite (methods_disjoint m Hw) in Hr. discriminate.
Qed.

(** The [create] of the fixture is a write. *)
Lemma X1_create_is_a_write :
  classifyOperation MoreSamples.fixture MoreSamples.createNode
  = Some MoreSamples.createOperation
  /\ (type MoreSamples.createOperation = write
      <-> isWriteMethod (method MoreSamples.createOperation) = true).
Proof.
  split; [vm_compute; reflexivity|].
  apply (X1_type_agrees_with_method MoreSamples.fixture
           MoreSamples.createNode MoreSamples.createOperation).
  vm_compute. reflexivity.
Defined.

(** X2.  A classified operation names an entity that is neither empty nor
    [$primary] nor [$replica], is located in the file it was classified
    for, at the line and column of the start of its call, and is in a
    transaction exactly when its call is. *)
Theorem X2_operation_fields
    (sf : SourceFile) (n : Node) (op : PrismaOperation) :
  classifyOperation sf n = Some op ->
  model op <> "" /\ model op <> "$primary" /\ model op <> "$replica"
  /\ file (location op) = getFilePath sf
  /\ (exists start callee args,
         ast n = Call start callee args
         /\ (line (location op), column (location op))
            = getLineAndColumnAtPos sf start)
  /\ inTransaction op = isInTransaction n.
Proof.
  intros H. pose proof (classified_inTransaction sf n op H) as Htx.
  apply classifyOperation_inv in H
    as (start & inner & name & m & args & Hast & _ & Hne & Hp & Hr & ->).
  cbn [model classified location file line column] in *.
  repeat split; try assumption.
  exists start, (PropertyAccess (PropertyAccess inner name) m), args.
  split; [exact Hast|]. now destruct (getLineAndColumnAtPos sf start).
Qed.

(** The [findMany] of the fixture, line 18, column 23. *)
Lemma X2_findMany_of_fixture :
  classifyOperation MoreSamples.fixture MoreSamples.findManyNode
  = Some MoreSamples.findManyOperation
  /\ model MoreSamples.findManyOperation = "user"
  /\ location MoreSamples.findManyOperation
     = mkSourceLocation "src/example-with-issues.ts" 18 23
  /\ file (location MoreSamples.findManyOperation)
     = getFilePath MoreSamples.fixture.
Proof.
  split; [vm_compute; reflexivity|].
  split; [reflexivity|]. split; [vm_compute; reflexivity|].
  apply (X2_operation_fields MoreSamples.fixture MoreSamples.findManyNode
           MoreSamples.findManyOperation).
  vm_compute. reflexivity.
Defined.

(** X3.  The routing flags of a classified operation are read off the text
    of the expression its method is taken from, and off nothing else: the
    primary flag is set exactly when that text contains [$primary()], the
    replica flag exactly when it contains [$replica()] and not
    [$primary()]. *)
Theorem X3_routing_is_decided_by_receiver_text
    (sf : SourceFile) (n : Node) (op : PrismaOperation) :
  classifyOperation sf n = Some op ->
  usesPrimary op = includes (routingText (ast n)) "$primary()"
  /\ usesReplica op
     = negb (includes (routingText (ast n)) "$primary()")
       && includes (routingText (ast n)) "$replica()".
Proof.
  intros H. apply classifyOperation_inv in H
    as (start & inner & name & m & args & Hast & _ & _ & _ & _ & ->).
  rewrite Hast. unfold classified. cbn [usesPrimary usesReplica routingText].
  rewrite checkReplicaUsageFrom_text. split; reflexivity.
Qed.

(** A client obtained as [getClient('$primary()')]: the string in the
    argument sets the primary flag. *)
Lemma X3_string_argument_sets_primary :
  exists op,
    classifyOperation MoreSamples.touchFile MoreSamples.touchReadNode = Some op
    /\ routingText (ast MoreSamples.touchReadNode)
       = "getClient('$primary()').user"
    /\ usesPrimary op = true /\ usesReplica op = false.
Proof.
  destruct (classifyOperation MoreSamples.touchFile MoreSamples.touchReadNode)
    as [op|] eqn:Hop; [|vm_compute in Hop; discriminate].
  exists op. split; [reflexivity|]. split; [vm_compute; reflexivity|].
  destruct (X3_routing_is_decided_by_receiver_text MoreSamples.touchFile
              MoreSamples.touchReadNode op Hop) as [Hp Hr].
  rewrite Hp, Hr. split; vm_compute; reflexivity.
Defined.

(** X4.  No reported read comes from a call whose method is taken from an
    expression whose text contains [$primary()]. *)
Theorem X4_primary_text_is_never_reported
    (sf : SourceFile) (insts : list PrismaClientInstance) (i : Issue)
    (n : Node) :
  In i (detectIssuesInFile sf insts) ->
  classifyOperation sf n = Some (readOperation i) ->
  includes (routingText (ast n)) "$primary()" = false.
Proof.
  intros Hi Hn.
  pose proof (detectIssuesInFile_respectsGuards sf insts) as Hall.
  rewrite Forall_forall in Hall. destruct (Hall i Hi) as (_ & _ & Hp).
  destruct (classified_routing sf n _ Hn) as [Hrouting _].
  now rewrite <- Hrouting.
Qed.

(** The first issue of the fixture: its read is [prisma.user.findMany]. *)
Lemma X4_first_issue_of_fixture :
  In MoreSamples.firstIssue (detectIssuesInFile MoreSamples.fixture [])
  /\ routingText (ast MoreSamples.findManyNode) = "prisma.user"
  /\ includes (routingText (ast MoreSamples.findManyNode)) "$primary()" = false.
Proof.
  assert (Hin : In MoreSamples.firstIssue
                  (detectIssuesInFile MoreSamples.fixture [])).
  { vm_compute. left. reflexivity. }
  split; [exact Hin|]. split; [vm_compute; reflexivity|].
  apply (X4_primary_text_is_never_reported MoreSamples.fixture []
           MoreSamples.firstIssue MoreSamples.findManyNode Hin).
  vm_compute. reflexivity.
Defined.

(* ================================================================== *)
(** ** Further properties: transactions                                *)
(* ================================================================== *)

(** X5.  A node of a file is in a transaction exactly when some call of
    the file whose callee is a property access named [$transaction] has the
    node among its descendants. *)
Theorem X5_in_transaction_iff_enclosing_call (sf : SourceFile) (h : Node) :
  In h (getDescendants (rootNode sf)) ->
  (isInTransaction h = true <->
   exists t,
     In t (getDescendants (rootNode sf))
     /\ isTransactionCall (ast t) = true
     /\ In h (getDescendants t)).
Proof.
  intros Hh. split.
  - intros Htx. apply isInTransaction_iff in Htx as (t & Ht & Hcall).
    destruct (descendant_getAncestors _ _ _ _ Hh Ht)
      as [[-> | []] | [Hdown Hbelow]].
    + discriminate Hcall.
    + now exists t.
  - intros (t & _ & Hcall & Hbelow).
    exact (isInTransaction_descendant t h (or_introl Hcall) Hbelow).
Qed.

(** The [create] in the callback of the fixture's [$transaction] call. *)
Lemma X5_create_in_callback :
  In Sample.createInTransaction (getDescendants (rootNode MoreSamples.fixture))
  /\ isInTransaction Sample.createInTransaction = true
  /\ (isInTransaction Sample.createInTransaction = true <->
      exists t,
        In t (getDescendants (rootNode MoreSamples.fixture))
        /\ isTransactionCall (ast t) = true
        /\ In Sample.createInTransaction (getDescendants t)).
Proof.
  assert (Ht : In Sample.transactionNode
                 (getDescendants (rootNode MoreSamples.fixture))).
  { apply (proj1 (filter_In (fun n => isTransactionCall (ast n))
                    Sample.transactionNode _)).
    apply nth_In. vm_compute. lia. }
  assert (Hh : In Sample.createInTransaction
                 (getDescendants (rootNode MoreSamples.fixture))).
  { apply (descendants_trans Sample.transactionNode _ _ _ Ht).
    apply (proj1 (filter_In (isKind SyntaxKind.CallExpression)
                    Sample.createInTransaction _)).
    apply nth_In. vm_compute. lia. }
  split; [exact Hh|]. split; [reflexivity|].
  apply (X5_in_transaction_iff_enclosing_call MoreSamples.fixture
           Sample.createInTransaction Hh).
Defined.

(** X6.  Being in a transaction is inherited: every node below a node that
    is in a transaction is in a transaction. *)
Theorem X6_transaction_is_inherited (g h : Node) :
  isInTransaction g = true ->
  In h (getDescendants g) ->
  isInTransaction h = true.
Proof.
  intros Hg Hh. destruct (descendant_ancestors _ _ _ Hh) as (pre & Hpre).
  unfold isInTransaction in *. rewrite Hpre.
  apply isInTransactionFrom_below. simpl.
  destruct (isTransactionCall (ast g)); [reflexivity | exact Hg].
Qed.

(** The callback of the fixture's transaction and the first call in it. *)
Lemma X6_call_in_callback :
  isInTransaction MoreSamples.callbackNode = true
  /\ In MoreSamples.callInCallback (getDescendants MoreSamples.callbackNode)
  /\ isInTransaction MoreSamples.callInCallback = true.
Proof.
  assert (Hin : In MoreSamples.callInCallback
                  (getDescendants MoreSamples.callbackNode)).
  { apply (proj1 (filter_In (isKind SyntaxKind.CallExpression)
                    MoreSamples.callInCallback _)).
    apply nth_In. vm_compute. lia. }
  split; [reflexivity|]. split; [exact Hin|].
  apply (X6_transaction_is_inherited MoreSamples.callbackNode
           MoreSamples.callInCallback); [reflexivity | exact Hin].
Defined.

(** X7.  A construct that is a [$transaction] call or lies in a
    transaction reports no issue, whatever writes and reads it holds. *)
Theorem X7_nothing_reported_in_a_transaction (sf : SourceFile) (f : Node) :
  isTransactionCall (ast f) = true \/ isInTransaction f = true ->
  detectIssuesInFunction sf f = [].
Proof.
  intros Hf. rewrite detectIssuesInFunction_pairsOf.
  apply pairsOf_no_write. intros op Hop.
  pose proof (operations_in_transaction sf f op Hf Hop) as Htx.
  unfold isUnguardedWrite. rewrite Htx. now destruct (type op).
Qed.

(** The callback of the fixture holds a [create] and a [findMany] and
    reports nothing. *)
Lemma X7_callback_reports_nothing :
  List.length (operationsOf MoreSamples.fixture MoreSamples.callbackNode) = 2
  /\ isInTransaction MoreSamples.callbackNode = true
  /\ detectIssuesInFunction MoreSamples.fixture MoreSamples.callbackNode = [].
Proof.
  split; [vm_compute; reflexivity|]. split; [reflexivity|].
  apply (X7_nothing_reported_in_a_transaction MoreSamples.fixture
           MoreSamples.callbackNode).
  right. reflexivity.
Defined.

(* ================================================================== *)
(** ** Further properties: the pairing                                 *)
(* ================================================================== *)

(** X8.  An issue is reported for a construct exactly for a write of its
    operation sequence outside any transaction and a read behind it in the
    sequence, outside any transaction and without primary routing; the
    issue is the one built from the two. *)
Theorem X8_reported_exactly_for_ordered_pairs
    (sf : SourceFile) (func : Node) (i : Issue) :
  In i (detectIssuesInFunction sf func) <->
  exists pre w mid r post,
    map operation (operationsOf sf func) = pre ++ w :: mid ++ r :: post
    /\ (type w = write /\ inTransaction w = false)
    /\ (type r = read /\ inTransaction r = false /\ usesPrimary r = false)
    /\ i = makeIssue w r.
Proof.
  rewrite detectIssuesInFunction_pairsOf, in_pairsOf. split.
  - intros (pre & w & mid & r & post & Hops & Hw & Hr & Hi).
    exists pre, w, mid, r, post.
    apply isUnguardedWrite_iff in Hw. apply isUnguardedRead_iff in Hr. auto.
  - intros (pre & w & mid & r & post & Hops & Hw & Hr & Hi).
    exists pre, w, mid, r, post.
    apply isUnguardedWrite_iff in Hw. apply isUnguardedRead_iff in Hr. auto.
Qed.

(** X9.  A construct reports at most as many issues as it has writes
    outside a transaction times reads outside a transaction and without
    primary routing. *)
Theorem X9_issue_count_bound (sf : SourceFile) (func : Node) :
  List.length (detectIssuesInFunction sf func)
  <= List.length
       (filter isUnguardedWrite (map operation (operationsOf sf func)))
     * List.length
         (filter isUnguardedRead (map operation (operationsOf sf func))).
Proof.
  rewrite detectIssuesInFunction_pairsOf.
  generalize (map operation (operationsOf sf func)). intros ops.
  apply length_pairsOf_bound.
Qed.

(** X10.  In a sequence of pairwise distinct operations a read is never
    paired with a write that comes behind it. *)
Theorem X10_read_before_write_is_never_paired
    (sf : SourceFile) (func : Node)
    (pre mid post : list PrismaOperation) (w r : PrismaOperation) :
  NoDup (map operation (operationsOf sf func)) ->
  map operation (operationsOf sf func) = pre ++ r :: mid ++ w :: post ->
  ~ In (makeIssue w r) (detectIssuesInFunction sf func).
Proof.
  intros Hnd Hops. rewrite detectIssuesInFunction_pairsOf.
  now apply (pairsOf_never_backwards _ pre mid post).
Qed.

(** [multipleOperations] of the fixture: [findFirst] comes before
    [update]. *)
Lemma X10_findFirst_before_update :
  let sf := MoreSamples.fixture in
  let func := Sample.topLevel sf Sample.multipleOperations in
  let c := classified sf [] (Sample.at_ 75 9) Sample.prisma "user" "create" in
  let f := classified sf [] (Sample.at_ 80 23) Sample.prisma "user" "findFirst" in
  let u := classified sf [] (Sample.at_ 85 9) Sample.prisma "user" "update" in
  let q := classified sf [] (Sample.at_ 91 23) Sample.prisma "user" "findUnique" in
  map operation (operationsOf sf func) = [c] ++ f :: [] ++ u :: [q]
  /\ ~ In (makeIssue u f) (detectIssuesInFunction sf func).
Proof.
  intros sf func c f u q.
  split; [vm_compute; reflexivity|].
  apply (X10_read_before_write_is_never_paired
           MoreSamples.fixture
           (Sample.topLevel MoreSamples.fixture Sample.multipleOperations)
           [classified MoreSamples.fixture [] (Sample.at_ 75 9)
              Sample.prisma "user" "create"]
           []
           [classified MoreSamples.fixture [] (Sample.at_ 91 23)
              Sample.prisma "user" "findUnique"]
           (classified MoreSamples.fixture [] (Sample.at_ 85 9)
              Sample.prisma "user" "update")
           (classified MoreSamples.fixture [] (Sample.at_ 80 23)
              Sample.prisma "user" "findFirst")).
  - set (ops := map operation
                  (operationsOf MoreSamples.fixture
                     (Sample.topLevel MoreSamples.fixture
                        Sample.multipleOperations))).
    assert (E : nodup PrismaOperation_eq_dec ops = ops)
      by (vm_compute; reflexivity).
    rewrite <- E. apply NoDup_nodup.
  - vm_compute. reflexivity.
Defined.

(** X11.  A write that lies inside the call of a read, in its callee or in
    its arguments, is never paired with that read: the read's call comes
    first in document order. *)
Theorem X11_write_inside_the_read_is_never_paired
    (sf : SourceFile) (f nr nw : Node) (r w : PrismaOperation) :
  In nr (getDescendantsOfKind SyntaxKind.CallExpression f) ->
  In nw (getDescendants nr) ->
  classifyOperation sf nr = Some r ->
  classifyOperation sf nw = Some w ->
  NoDup (map operation (operationsOf sf f)) ->
  ~ In (makeIssue w r) (detectIssuesInFunction sf f).
Proof.
  intros Hnr Hnw Hr Hw Hnd.
  apply filter_In in Hnr as [Hnr Hkr].
  destruct (descendants_segment _ _ _ Hnr) as (b & a & Hseg).
  assert (Hwin : In w (map operation
                         (classifyAll sf
                            (filter (isKind SyntaxKind.CallExpression)
                               (getDescendants nr))))).
  { apply in_map_iff. exists (mkOperationWithNode w nw). split; [reflexivity|].
    apply in_classifyAll_iff. split; [|exact Hw].
    apply filter_In. split; [exact Hnw|].
    exact (classified_is_call sf nw w Hw). }
  apply in_split in Hwin as (m1 & m2 & Hm).
  assert (Hops : map operation (operationsOf sf f)
                 = map operation
                     (classifyAll sf
                        (filter (isKind SyntaxKind.CallExpression) b))
                   ++ r :: m1 ++ w
                   :: (m2 ++ map operation
                               (classifyAll sf
                                  (filter (isKind SyntaxKind.CallExpression)
                                     a)))).
  { unfold operationsOf, getDescendantsOfKind, getDescendants at 1.
    rewrite Hseg, filter_app. cbn [filter]. rewrite Hkr, filter_app.
    rewrite classifyAll_app. cbn [classifyAll]. rewrite Hr.
    rewrite classifyAll_app, !map_app. cbn [map operation].
    rewrite map_app, Hm, <- !app_assoc. reflexivity. }
  rewrite detectIssuesInFunction_pairsOf.
  exact (pairsOf_never_backwards _ _ _ _ w r Hnd Hops).
Qed.

(** [prisma.user.findMany({ where: await prisma.user.create({ }) })]: the
    write runs first and is not reported. *)
Lemma X11_create_as_argument_of_findMany :
  In MoreSamples.readNode
     (getDescendantsOfKind SyntaxKind.CallExpression MoreSamples.lookupNode)
  /\ In MoreSamples.writeNode (getDescendants MoreSamples.readNode)
  /\ detectIssuesInFunction MoreSamples.lookupFile MoreSamples.lookupNode = []
  /\ ~ In (makeIssue
             (classified MoreSamples.lookupFile [] (Sample.at_ 2 40)
                Sample.prisma "user" "create")
             (classified MoreSamples.lookupFile [] (Sample.at_ 2 9)
                Sample.prisma "user" "findMany"))
          (detectIssuesInFunction MoreSamples.lookupFile MoreSamples.lookupNode).
Proof.
  assert (Hr : In MoreSamples.readNode
                 (getDescendantsOfKind SyntaxKind.CallExpression
                    MoreSamples.lookupNode)).
  { apply nth_In. vm_compute. lia. }
  assert (Hw : In MoreSamples.writeNode (getDescendants MoreSamples.readNode)).
  { apply (proj1 (filter_In (isKind SyntaxKind.CallExpression)
                    MoreSamples.writeNode _)).
    apply nth_In. vm_compute. lia. }
  split; [exact Hr|]. split; [exact Hw|]. split; [vm_compute; reflexivity|].
  apply (X11_write_inside_the_read_is_never_paired MoreSamples.lookupFile
           MoreSamples.lookupNode MoreSamples.readNode MoreSamples.writeNode
           _ _ Hr Hw).
  - vm_compute. reflexivity.
  - vm_compute. reflexivity.
  - set (ops := map operation
                  (operationsOf MoreSamples.lookupFile MoreSamples.lookupNode)).
    assert (E : nodup PrismaOperation_eq_dec ops = ops)
      by (vm_compute; reflexivity).
    rewrite <- E. apply NoDup_nodup.
Defined.

(* ================================================================== *)
(** ** Further properties: the issues of a file                        *)
(* ================================================================== *)

(** X12.  Every issue reported for a file has type [read-after-write] and
    severity [error], pairs a write with a read, both located in that
    file, and carries a call chain of exactly two entries: the file and
    line of the write, then the file and line of the read. *)
Theorem X12_issues_are_well_formed
    (sf : SourceFile) (insts : list PrismaClientInstance) :
  Forall (wellFormedIssue sf) (detectIssuesInFile sf insts).
Proof.
  apply Forall_forall. intros i Hi.
  apply in_detectIssuesInFile in Hi
    as (f & pre & w & mid & r & post & _ & Hops & Hw & Hr & ->).
  assert (Hfile : forall op, In op (map operation (operationsOf sf f)) ->
            file (location op) = getFilePath sf).
  { intros op Hop. apply operationsOf_classified in Hop as (n & _ & Hn).
    exact (classified_file sf n op Hn). }
  assert (Hfw : file (location w) = getFilePath sf).
  { apply Hfile. rewrite Hops. apply in_or_app. right. now left. }
  assert (Hfr : file (location r) = getFilePath sf).
  { apply Hfile. rewrite Hops. apply in_or_app. right. right.
    apply in_or_app. right. now left. }
  apply isUnguardedWrite_iff in Hw as [Hw _].
  apply isUnguardedRead_iff in Hr as [Hr _].
  unfold wellFormedIssue, makeIssue.
  cbn [issueType severity writeOperation readOperation callChain].
  rewrite Hfw, Hfr. repeat split; assumption.
Qed.

(** X13.  Both operations of an issue reported for a file are the
    classifications of two calls found below one function-like construct of
    the file, the write's call before the read's in document order; calls
    outside every such construct are not reported. *)
Theorem X13_issues_come_from_one_construct
    (sf : SourceFile) (insts : list PrismaClientInstance) (i : Issue) :
  In i (detectIssuesInFile sf insts) ->
  exists f cpre nw cmid nr cpost,
    In f (functionsOf sf)
    /\ getDescendantsOfKind SyntaxKind.CallExpression f
       = cpre ++ nw :: cmid ++ nr :: cpost
    /\ classifyOperation sf nw = Some (writeOperation i)
    /\ classifyOperation sf nr = Some (readOperation i).
Proof.
  intros Hi.
  apply in_detectIssuesInFile in Hi
    as (f & pre & w & mid & r & post & Hf & Hops & _ & _ & ->).
  unfold operationsOf in Hops.
  apply operations_split_calls in Hops
    as (cpre & nw & cmid & nr & cpost & Hcalls & Hw & Hr).
  exists f, cpre, nw, cmid, nr, cpost. auto.
Qed.

(** The first issue of the fixture comes from [createAndReadUser]; a
    module whose write and read are at its top level reports nothing. *)
Lemma X13_first_issue_of_fixture :
  In MoreSamples.firstIssue (detectIssuesInFile MoreSamples.fixture [])
  /\ detectIssuesInFile MoreSamples.topLevelFile [] = []
  /\ exists f cpre nw cmid nr cpost,
       In f (functionsOf MoreSamples.fixture)
       /\ getDescendantsOfKind SyntaxKind.CallExpression f
          = cpre ++ nw :: cmid ++ nr :: cpost
       /\ classifyOperation MoreSamples.fixture nw
          = Some MoreSamples.createOperation
       /\ classifyOperation MoreSamples.fixture nr
          = Some MoreSamples.findManyOperation.
Proof.
  assert (Hin : In MoreSamples.firstIssue
                  (detectIssuesInFile MoreSamples.fixture [])).
  { vm_compute. left. reflexivity. }
  split; [exact Hin|]. split; [vm_compute; reflexivity|].
  exact (X13_issues_come_from_one_construct MoreSamples.fixture []
           MoreSamples.firstIssue Hin).
Defined.

(* ================================================================== *)
(** ** Further properties: runs                                        *)
(* ================================================================== *)


(** X15.  In the result of a run the summary counts what the result
    holds: [totalIssues] is the number of issues, [filesAnalyzed] the number
    of source files of the project, and [executionTime] is left at [0s]. *)
Theorem X15_summary_counts
    (env : Environment) (options : AnalyzerOptions) (result : AnalysisResult) :
  snd (analyze env options) = inr result ->
  totalIssues (summary result) = List.length (issues result)
  /\ filesAnalyzed (summary result)
     = List.length
         (getSourceFiles env (projectPath options ++ "/tsconfig.json")%string)
  /\ executionTime (summary result) = "0s".
Proof.
  intros H.
  destruct (pathExists env (projectPath options)) eqn:Hp;
    [|rewrite (analyze_missing_path env options Hp) in H; discriminate].
  destruct (isDirectory env (projectPath options)) eqn:Hd;
    [|rewrite (analyze_not_directory env options Hp Hd) in H; discriminate].
  rewrite (analyze_result env options Hp Hd) in H. cbv zeta in H.
  injection H as <-. repeat split.
Qed.

(** The run over the fixture: five issues in one file. *)
Lemma X15_run_over_fixture :
  exists result,
    snd (analyze (Sample.projectOf [MoreSamples.fixture]) Sample.options)
    = inr result
    /\ totalIssues (summary result) = 5
    /\ totalIssues (summary result) = List.length (issues result)
    /\ filesAnalyzed (summary result) = 1.
Proof.
  destruct (snd (analyze (Sample.projectOf [MoreSamples.fixture])
                   Sample.options)) as [msg | result] eqn:Hrun;
    [vm_compute in Hrun; discriminate|].
  exists result. split; [reflexivity|].
  destruct (X15_summary_counts (Sample.projectOf [MoreSamples.fixture])
              Sample.options result Hrun) as (Htotal & Hfiles & _).
  split; [|split; [exact Htotal | exact Hfiles]].
  vm_compute in Hrun. injection Hrun as <-. reflexivity.
Defined.

(* ================================================================== *)
(** ** Further properties: the client detector                         *)
(* ================================================================== *)



(** X17.  Every recorded instance comes from a variable declaration of a
    project file that has an initialiser: a [new] expression of exactly
    [PrismaClient], or an expression that is not a [new] expression and
    whose text contains [PrismaClient] or [.$extends].  Its name, file and
    line are the declaration's, and its replica mark says whether the
    initialiser's text contains [readReplicas] or [read-replicas]. *)
Theorem X17_instances_come_from_declarations
    (files : list SourceFile) (inst : PrismaClientInstance) :
  In inst (detectPrismaClients files) ->
  exists sf d start init,
    In sf files
    /\ In d (getDescendants (rootNode sf))
    /\ ast d = VarDecl start (instanceName inst) (Some init)
    /\ instanceFile inst = getFilePath sf
    /\ instanceLine inst = fst (getLineAndColumnAtPos sf start)
    /\ match init with
       | New expression _ => getText expression = "PrismaClient"
       | _ => includes (getText init) "PrismaClient"
              || includes (getText init) ".$extends" = true
       end
    /\ hasReadReplicaExtension inst
       = includes (getText init) "readReplicas"
         || includes (getText init) "read-replicas".
Proof.
  intros H. apply in_detectPrismaClients in H
    as (sf & d & Hsf & Hd & Hk & Hp & ->).
  unfold isKind in Hk.
  destruct (ast d) as [| | | | start name init |] eqn:Hast; try discriminate.
  destruct init as [init|]; [|discriminate].
  exists sf, d, start, init.
  cbn [instanceName instanceFile instanceLine hasReadReplicaExtension
       declarationName declarationStart checkReadReplicaExtension].
  repeat split; try assumption; try reflexivity.
  cbn [isPrismaClientDeclaration] in Hp.
  destruct init; try exact Hp. now apply String.eqb_eq.
Qed.

(** The instance of the fixture. *)
Lemma X17_instance_of_fixture :
  In MoreSamples.fixtureInstance (detectPrismaClients [MoreSamples.fixture])
  /\ exists sf d start init,
       In sf [MoreSamples.fixture]
       /\ In d (getDescendants (rootNode sf))
       /\ ast d = VarDecl start "prisma" (Some init)
       /\ instanceFile MoreSamples.fixtureInstance = getFilePath sf
       /\ instanceLine MoreSamples.fixtureInstance
          = fst (getLineAndColumnAtPos sf start)
       /\ match init with
          | New expression _ => getText expression = "PrismaClient"
          | _ => includes (getText init) "PrismaClient"
                 || includes (getText init) ".$extends" = true
          end
       /\ hasReadReplicaExtension MoreSamples.fixtureInstance
          = includes (getText init) "readReplicas"
            || includes (getText init) "read-replicas".
Proof.
  assert (Hin : In MoreSamples.fixtureInstance
                  (detectPrismaClients [MoreSamples.fixture])).
  { vm_compute. left. reflexivity. }
  split; [exact Hin|].
  exact (X17_instances_come_from_declarations [MoreSamples.fixture]
           MoreSamples.fixtureInstance Hin).
Defined.

(** X18.  [isPrismaClientReference] answers [true] exactly for the names
    of the instances it is given; in particular every instance the
    detector records is recognised by its name, and nothing is recognised
    against an empty list. *)
Theorem X18_reference_lookup
    (identifierName : string) (prismaInstances : list PrismaClientInstance) :
  (isPrismaClientReference identifierName prismaInstances = true <->
   exists instance,
     In instance prismaInstances /\ instanceName instance = identifierName)
  /\ (forall files instance,
         In instance (detectPrismaClients files) ->
         isPrismaClientReference (instanceName instance)
           (detectPrismaClients files) = true)
  /\ isPrismaClientReference identifierName [] = false.
Proof.
  assert (Hiff : forall name insts,
             isPrismaClientReference name insts = true <->
             exists instance,
               In instance insts /\ instanceName instance = name).
  { intros name insts. unfold isPrismaClientReference.
    rewrite existsb_exists. split.
    - intros (x & Hx & Heq). apply String.eqb_eq in Heq. now exists x.
    - intros (x & Hx & Heq). exists x. split; [exact Hx|].
      now apply String.eqb_eq. }
  split; [apply Hiff|]. split; [|reflexivity].
  intros files instance Hin. apply Hiff. now exists instance.
Qed.

(* ================================================================== *)
(** ** Further properties: file utilities and the command              *)
(* ================================================================== *)


(** X20.  A file is to be analyzed exactly when its path ends in [.ts] or
    in [.tsx], whatever comes before the suffix. *)
Theorem X20_shouldAnalyzeFile_suffix (filePath : string) :
  FileUtils.shouldAnalyzeFile filePath = true <->
  exists base,
    filePath = (base ++ ".ts")%string \/ filePath = (base ++ ".tsx")%string.
Proof.
  unfold FileUtils.shouldAnalyzeFile. rewrite orb_true_iff, !endsWith_iff.
  split.
  - intros [(base & H) | (base & H)]; exists base; auto.
  - intros (base & [H | H]); [left | right]; now exists base.
Qed.



